(** * Inventory service: stock accounting, reservations and the stock cache

    A shallow embedding of [InventoryService]
    (src/modules/inventory/inventory.service.ts) and of the
    [InventoryItem] schema it works on.

    The service is a class of [async] methods over four collaborators: the
    MongoDB collections (inventory items, stock-update records, stock
    reservations), the cache manager, the Bull queue and the event emitter.
    Every collaborator is a component of [World]; a method is a state
    transformer that returns a value or throws ([M]).  A call to a
    collaborator may be rejected: which ones are, during one service call,
    is given by a [Faults] record.

    Numbers: TypeScript [number]s holding counters are modelled as [Z]
    (the counters are integers, exact below 2^53).  Timestamps, cache
    lifetimes and timer delays are milliseconds.  Logging is not
    modelled. *)

From Stdlib Require Import ZArith Lia.
From stdpp Require Import gmap strings list fin_maps pretty.

Local Open Scope Z_scope.

(** ** Data model *)

(** One element of [InventoryItem.history]. *)
Record HistoryEntry := {
  h_operation : string;
  h_quantity : Z;
  h_reason : option string;
  h_referenceId : option string;
  h_timestamp : Z
}.

(** The [InventoryItem] schema.  The document [_id] is not a field of the
    model: the collection is keyed by [(productId, warehouseId)], which the
    schema's unique compound index makes one-to-one with [_id]. *)
Record InventoryItem := {
  productId : string;
  warehouseId : string;
  quantity : Z;
  reserved : Z;
  lowStockThreshold : Z;
  isActive : bool;
  history : list HistoryEntry;
  lastUpdated : Z
}.

(** The fields of the stock-update record, lines 143-153 of the service. *)
Record StockUpdate := {
  su_productId : string;
  su_warehouseId : string;
  su_operation : string;
  su_quantity : Z;
  su_newQuantity : Z;
  su_newReserved : Z;
  su_reason : option string;
  su_referenceId : option string;
  su_timestamp : Z
}.

(** Modelled from the spec: the [StockReservation] schema file is not part of
    the sources; section 3 of the specification gives the four statuses.  The
    service writes ['ACTIVE'] and ['EXPIRED'] and tests for ['ACTIVE']. *)
Inductive ReservationStatus := ACTIVE | EXPIRED | FULFILLED | CANCELLED.

Record StockReservation := {
  r_productId : string;
  r_quantity : Z;
  r_warehouseId : string;
  r_expiresAt : Z;
  r_status : ReservationStatus
}.

Record UpdateStockDto := {
  dto_productId : string;
  dto_warehouseId : string;
  dto_quantity : Z;
  dto_operation : string;
  dto_reason : option string;
  dto_referenceId : option string
}.

Record ReserveStockDto := {
  rs_productId : string;
  rs_quantity : Z;
  rs_warehouseId : string;
  rs_ttlSeconds : option Z
}.

Record LowStockEvent := {
  ev_productId : string;
  ev_warehouseId : string;
  ev_availableStock : Z;
  ev_threshold : Z
}.

(** Payload of the ['process-stock-update'] job. *)
Record StockJob := {
  job_productId : string;
  job_warehouseId : string;
  job_operation : string;
  job_quantity : Z;
  job_timestamp : Z
}.

(** One row of the [$group] stage of [getStockLevel]. *)
Record GroupRow := {
  totalStock : Z;
  g_reserved : Z
}.

(** What [cacheManager.get] resolves to. *)
Inductive Cached := CUndefined | CNull | CNumber (n : Z).

Record CacheEntry := {
  ce_value : Z;
  ce_expiresAt : Z
}.

(** ** Calls to the collaborators, errors *)

Inductive Call :=
| CacheGet (key : string)
| CacheSet (key : string) (value ttl : Z)
| CacheDel (key : string)
| Aggregate (p : string) (w : option string)
| StartSession
| StartTransaction
| FindOneAndUpsert (p w : string)
| FindOneAndUpdate (p w : string)
| SaveStockUpdate
| Emit (name : string)
| QueueAdd (name : string)
| CommitTransaction
| AbortTransaction
| EndSession
| SaveReservation (id : string)
| FindById (id : string)
| SetTimeout (id : string) (fireAt : Z).

(** A thrown value: [new Error(message)] of the service itself, or the
    rejection of a collaborator's call. *)
Inductive Error :=
| JsError (message : string)
| Rejected (c : Call).

Inductive Result (A : Type) :=
| Ok (a : A)
| Throw (e : Error).
Arguments Ok {A} a.
Arguments Throw {A} e.

Definition isOk {A} (r : Result A) : bool :=
  match r with Ok _ => true | Throw _ => false end.

(** ** The world *)

(** [session] is the working copy of an open transaction: the writes made
    with [{ session }] go there, [commitTransaction] installs it,
    [abortTransaction] drops it.  [now] is the clock, in milliseconds;
    [ticks] are the times that pass after each of the coming readings of the
    clock by the service, in order (none left: the clock stands still).
    [calls] is the log of the calls made to the collaborators, oldest
    first. *)
Record World := {
  items : gmap (string * string) InventoryItem;
  audits : list StockUpdate;
  reservations : gmap string StockReservation;
  session : option (gmap (string * string) InventoryItem * list StockUpdate);
  cache : gmap string CacheEntry;
  now : Z;
  ticks : list Z;
  queue : list StockJob;
  emitted : list LowStockEvent;
  timers : list (string * Z);
  nextId : N;
  calls : list Call
}.

Definition set_items v (w : World) : World :=
  {| items := v; audits := audits w; reservations := reservations w;
     session := session w; cache := cache w; now := now w;
     ticks := ticks w; queue := queue w;
     emitted := emitted w; timers := timers w; nextId := nextId w;
     calls := calls w |}.
Definition set_audits v (w : World) : World :=
  {| items := items w; audits := v; reservations := reservations w;
     session := session w; cache := cache w; now := now w;
     ticks := ticks w; queue := queue w;
     emitted := emitted w; timers := timers w; nextId := nextId w;
     calls := calls w |}.
Definition set_reservations v (w : World) : World :=
  {| items := items w; audits := audits w; reservations := v;
     session := session w; cache := cache w; now := now w;
     ticks := ticks w; queue := queue w;
     emitted := emitted w; timers := timers w; nextId := nextId w;
     calls := calls w |}.
Definition set_session v (w : World) : World :=
  {| items := items w; audits := audits w; reservations := reservations w;
     session := v; cache := cache w; now := now w;
     ticks := ticks w; queue := queue w;
     emitted := emitted w; timers := timers w; nextId := nextId w;
     calls := calls w |}.
Definition set_cache v (w : World) : World :=
  {| items := items w; audits := audits w; reservations := reservations w;
     session := session w; cache := v; now := now w;
     ticks := ticks w; queue := queue w;
     emitted := emitted w; timers := timers w; nextId := nextId w;
     calls := calls w |}.
Definition set_now v (w : World) : World :=
  {| items := items w; audits := audits w; reservations := reservations w;
     session := session w; cache := cache w; now := v;
     ticks := ticks w; queue := queue w;
     emitted := emitted w; timers := timers w; nextId := nextId w;
     calls := calls w |}.
Definition set_ticks v (w : World) : World :=
  {| items := items w; audits := audits w; reservations := reservations w;
     session := session w; cache := cache w; now := now w;
     ticks := v; queue := queue w;
     emitted := emitted w; timers := timers w; nextId := nextId w;
     calls := calls w |}.
Definition set_queue v (w : World) : World :=
  {| items := items w; audits := audits w; reservations := reservations w;
     session := session w; cache := cache w; now := now w;
     ticks := ticks w; queue := v;
     emitted := emitted w; timers := timers w; nextId := nextId w;
     calls := calls w |}.
Definition set_emitted v (w : World) : World :=
  {| items := items w; audits := audits w; reservations := reservations w;
     session := session w; cache := cache w; now := now w;
     ticks := ticks w; queue := queue w;
     emitted := v; timers := timers w; nextId := nextId w;
     calls := calls w |}.
Definition set_timers v (w : World) : World :=
  {| items := items w; audits := audits w; reservations := reservations w;
     session := session w; cache := cache w; now := now w;
     ticks := ticks w; queue := queue w;
     emitted := emitted w; timers := v; nextId := nextId w;
     calls := calls w |}.
Definition set_nextId v (w : World) : World :=
  {| items := items w; audits := audits w; reservations := reservations w;
     session := session w; cache := cache w; now := now w;
     ticks := ticks w; queue := queue w;
     emitted := emitted w; timers := timers w; nextId := v;
     calls := calls w |}.
Definition set_calls v (w : World) : World :=
  {| items := items w; audits := audits w; reservations := reservations w;
     session := session w; cache := cache w; now := now w;
     ticks := ticks w; queue := queue w;
     emitted := emitted w; timers := timers w; nextId := nextId w;
     calls := v |}.

(** The collaborator is called: the call is logged. *)
Definition logCall (c : Call) (w : World) : World :=
  set_calls (calls w ++ [c]) w.

(** ** The monad of service methods *)

Definition M (A : Type) : Type := World -> Result A * World.

Definition ret {A} (a : A) : M A := fun w => (Ok a, w).

Definition throw {A} (e : Error) : M A := fun w => (Throw e, w).

Definition bind {A B} (m : M A) (k : A -> M B) : M B :=
  fun w =>
    match m w with
    | (Ok a, w1) => k a w1
    | (Throw e, w1) => (Throw e, w1)
    end.

(** [try { m } catch (error) { h error }] *)
Definition tryCatch {A} (m : M A) (h : Error -> M A) : M A :=
  fun w =>
    match m w with
    | (Ok a, w1) => (Ok a, w1)
    | (Throw e, w1) => h e w1
    end.

(** [try { m } finally { fin }]: [fin] runs on both exits; when it throws,
    its error replaces the outcome of [m]. *)
Definition tryFinally {A} (m : M A) (fin : M unit) : M A :=
  fun w =>
    match m w with
    | (r, w1) =>
        match fin w1 with
        | (Ok _, w2) => (r, w2)
        | (Throw e, w2) => (Throw e, w2)
        end
    end.

Declare Scope js_scope.
Delimit Scope js_scope with js.
Notation "x <- m ;; k" := (bind m (fun x => k))
  (at level 100, m at next level, right associativity) : js_scope.
Notation "m ;;; k" := (bind m (fun _ => k))
  (at level 100, right associativity) : js_scope.
Local Open Scope js_scope.

(** A call to a collaborator that is rejected when [fails] holds. *)
Definition callExt (c : Call) (fails : bool) : M unit :=
  fun w =>
    if fails then (Throw (Rejected c), logCall c w)
    else (Ok tt, logCall c w).

(** State change without a result. *)
Definition modify (g : World -> World) : M unit := fun w => (Ok tt, g w).

(** ** Which calls are rejected *)

(** One field per call site that awaits a collaborator.  The session
    life-cycle calls ([startSession], [startTransaction],
    [abortTransaction], [endSession]) and [setTimeout] are taken to
    succeed: the driver ignores the errors of an abort, and ending a
    session does not reject.  [cacheMissIsNull] is not a rejection: it
    tells what the cache store answers for a key it does not hold, [null]
    (as the Redis stores and the mock of the unit tests do) or
    [undefined] (as the memory store does). *)
Record Faults := {
  cacheGetFails : bool;
  cacheMissIsNull : bool;
  aggregateFails : bool;
  cacheSetFails : bool;
  upsertFails : bool;
  updateFails : bool;
  auditSaveFails : bool;
  cacheDelFails : string -> bool;
  emitFails : bool;
  queueAddFails : bool;
  commitFails : bool;
  reservationSaveFails : bool;
  findByIdFails : bool
}.

Definition noFaults : Faults :=
  {| cacheGetFails := false; cacheMissIsNull := false;
     aggregateFails := false; cacheSetFails := false;
     upsertFails := false; updateFails := false; auditSaveFails := false;
     cacheDelFails := fun _ => false; emitFails := false;
     queueAddFails := false; commitFails := false;
     reservationSaveFails := false; findByIdFails := false |}.

(** ** JavaScript idioms *)

(** [warehouseId || 'all'], [if (warehouseId)], [warehouseId && key]: a
    missing and an empty string are both falsy. *)
Definition truthy (s : option string) : option string :=
  match s with
  | Some EmptyString => None
  | Some s' => Some s'
  | None => None
  end.

(** [cachedStock !== undefined && cachedStock !== null]: the number the
    test lets through, if it does.  A falsy number such as [0] passes. *)
Definition cacheHit (c : Cached) : option Z :=
  match c with
  | CUndefined => None
  | CNull => None
  | CNumber n => Some n
  end.

(** [Promise.all(ms)]: every promise of the list has been started; the
    outcome is the first rejection, if there is one. *)
Fixpoint promiseAll (ms : list (M unit)) : M unit :=
  match ms with
  | [] => ret tt
  | m :: rest =>
      fun w =>
        match m w with
        | (r, w1) =>
            match promiseAll rest w1 with
            | (r', w2) =>
                (match r with Throw e => Throw e | Ok _ => r' end, w2)
            end
        end
  end.

(** [new Date()], [Date.now()]: the clock is read, and time goes on before
    it is read again. *)
Definition tick (w : World) : World :=
  set_ticks (tail (ticks w)) (set_now (now w + default 0 (head (ticks w))) w).

Definition dateNow : M Z := fun w => (Ok (now w), tick w).

Definition liftResult {A} (r : Result A) : M A := fun w => (r, w).

(** ** Constants of the service *)

Definition CACHE_TTL : Z := 300.
Definition RESERVATION_TTL : Z := 1800.

(** ** The collaborators *)

(** Documents created by an upsert take the schema's defaults. *)
Definition newItem (p w : string) (t : Z) : InventoryItem :=
  {| productId := p; warehouseId := w; quantity := 0; reserved := 0;
     lowStockThreshold := 10; isActive := true; history := [];
     lastUpdated := t |}.

(** The query of [getStockLevel]:
    [{ productId, isActive: true }] and, when given, [warehouseId]. *)
Definition matchQuery (p : string) (wh : option string)
    (it : InventoryItem) : bool :=
  String.eqb (productId it) p
  && Bool.eqb (isActive it) true
  && match truthy wh with
     | Some w => String.eqb (warehouseId it) w
     | None => true
     end.

Definition sumOf (g : InventoryItem -> Z) (l : list InventoryItem) : Z :=
  foldr (fun it acc => g it + acc) 0 l.

(** [$match] then [$group] with [_id: null]: no row when nothing matches,
    else one row holding the two sums. *)
Definition aggregateRows (p : string) (wh : option string)
    (docs : list InventoryItem) : list GroupRow :=
  match List.filter (matchQuery p wh) docs with
  | [] => []
  | ms => [ {| totalStock := sumOf quantity ms;
              g_reserved := sumOf reserved ms |} ]
  end.

Definition documents (w : World) : list InventoryItem :=
  (map_to_list (items w)).*2.

(** What a cache read sees at the current time. *)
Definition cacheLookup (key : string) (w : World) : Cached :=
  match cache w !! key with
  | Some e => if now w <? ce_expiresAt e then CNumber (ce_value e)
              else CUndefined
  | None => CUndefined
  end.

(** The inventory collection as a transaction sees it. *)
Definition sessionItems (w : World) : gmap (string * string) InventoryItem :=
  match session w with
  | Some (its, _) => its
  | None => items w
  end.

Definition writeItem (k : string * string) (it : InventoryItem)
    (w : World) : World :=
  match session w with
  | Some (its, aus) => set_session (Some (<[k := it]> its, aus)) w
  | None => set_items (<[k := it]> (items w)) w
  end.

Definition writeAudit (su : StockUpdate) (w : World) : World :=
  match session w with
  | Some (its, aus) => set_session (Some (its, aus ++ [su])) w
  | None => set_audits (audits w ++ [su]) w
  end.

Definition commitSession (w : World) : World :=
  match session w with
  | Some (its, aus) => set_session None (set_audits aus (set_items its w))
  | None => w
  end.

Definition cacheKey (p : string) (wh : option string) : string :=
  "stock:" +:+ p +:+ ":" +:+ default "all" (truthy wh).

Section Service.

(** The calls rejected during the service call at hand. *)
Variable f : Faults.

(** What [cacheManager.get] resolves to: the number held for the key, or
    the store's answer for a key it does not hold. *)
Definition cacheAnswer (key : string) (w : World) : Cached :=
  match cacheLookup key w with
  | CNumber n => CNumber n
  | _ => if cacheMissIsNull f then CNull else CUndefined
  end.

Definition cacheManager_get (key : string) : M Cached :=
  callExt (CacheGet key) (cacheGetFails f) ;;;
  fun w => (Ok (cacheAnswer key w), w).

(** [cacheManager.set(key, value, ttl)]: the cache manager that
    [@nestjs/cache-manager] wraps takes the bare number as a time-to-live
    in milliseconds. *)
Definition cacheManager_set (key : string) (v ttl : Z) : M unit :=
  callExt (CacheSet key v ttl) (cacheSetFails f) ;;;
  modify (fun w =>
    set_cache (<[key := {| ce_value := v;
                           ce_expiresAt := now w + ttl |}]> (cache w)) w).

Definition cacheManager_del (key : string) : M unit :=
  callExt (CacheDel key) (cacheDelFails f key) ;;;
  modify (fun w => set_cache (delete key (cache w)) w).

Definition inventoryItemModel_aggregate (p : string) (wh : option string)
    : M (list GroupRow) :=
  callExt (Aggregate p wh) (aggregateFails f) ;;;
  fun w => (Ok (aggregateRows p wh (documents w)), w).

Definition startTransaction : M unit :=
  callExt StartTransaction false ;;;
  modify (fun w => set_session (Some (items w, audits w)) w).

Definition commitTransaction : M unit :=
  callExt CommitTransaction (commitFails f) ;;;
  modify commitSession.

Definition abortTransaction : M unit :=
  callExt AbortTransaction false ;;;
  modify (set_session None).

Definition endSession : M unit :=
  callExt EndSession false ;;;
  modify (set_session None).

(** [findOneAndUpdate({ productId, warehouseId }, {},
                      { upsert: true, new: true, session })] *)
Definition findOneAndUpsert (p wh : string) : M InventoryItem :=
  callExt (FindOneAndUpsert p wh) (upsertFails f) ;;;
  fun w =>
    match sessionItems w !! (p, wh) with
    | Some it => (Ok it, w)
    | None =>
        let it := newItem p wh (now w) in
        (Ok it, writeItem (p, wh) it w)
    end.

(** [findOneAndUpdate({ _id: item._id },
       { quantity, reserved, lastUpdated, $push: { history } },
       { new: true, session })].  [id] stands for [item._id]: the key under
    which the item read by the upsert is stored.  The call resolves to
    [null] when no document has that id. *)
Definition findOneAndUpdate (id : string * string)
    (newQuantity newReserved newLastUpdated : Z) (entry : HistoryEntry)
    : M (option InventoryItem) :=
  callExt (FindOneAndUpdate (fst id) (snd id)) (updateFails f) ;;;
  fun w =>
    match sessionItems w !! id with
    | Some cur =>
        let it := {| productId := productId cur;
                     warehouseId := warehouseId cur;
                     quantity := newQuantity;
                     reserved := newReserved;
                     lowStockThreshold := lowStockThreshold cur;
                     isActive := isActive cur;
                     history := history cur ++ [entry];
                     lastUpdated := newLastUpdated |} in
        (Ok (Some it), writeItem id it w)
    | None => (Ok None, w)
    end.

(** Line 143, [new this.inventoryItemModel.constructor({ ... })].
    [inventoryItemModel] is a Mongoose model, that is a class, and the
    [constructor] property of a class is [Function]: the expression is
    [new Function(fields)], which takes the string of its argument,
    ["[object Object]"], for the source text of a function body and throws
    a [SyntaxError].  No stock-update document is built.  (The [StockUpdate]
    model that the file imports is not used.  With the plain object that the
    unit tests inject as the model, [constructor] is [Object] and it is the
    [save] of line 155 that throws, a [TypeError]: no run gets past these
    two lines.) *)
Definition stockUpdateRecordError : Error :=
  JsError "SyntaxError: Unexpected identifier 'Object'".

Definition inventoryItemModel_constructor_new (fields : StockUpdate)
    : M StockUpdate :=
  throw stockUpdateRecordError.

(** Line 155, [stockUpdate.save({ session })]. *)
Definition stockUpdate_save (su : StockUpdate) : M unit :=
  callExt SaveStockUpdate (auditSaveFails f) ;;;
  modify (writeAudit su).

Definition eventEmitter_emit (name : string) (ev : LowStockEvent) : M unit :=
  callExt (Emit name) (emitFails f) ;;;
  modify (fun w => set_emitted (emitted w ++ [ev]) w).

Definition stockQueue_add (name : string) (job : StockJob) : M unit :=
  callExt (QueueAdd name) (queueAddFails f) ;;;
  modify (fun w => set_queue (queue w ++ [job]) w).

(** [new this.stockReservationModel(...)] draws a fresh [_id]; its
    [toString()] is the reservation id. *)
Definition newObjectId : M string :=
  fun w => (Ok (pretty (nextId w)), set_nextId (N.succ (nextId w)) w).

Definition reservation_save (id : string) (r : StockReservation) : M unit :=
  callExt (SaveReservation id) (reservationSaveFails f) ;;;
  modify (fun w => set_reservations (<[id := r]> (reservations w)) w).

Definition stockReservationModel_findById (id : string)
    : M (option StockReservation) :=
  callExt (FindById id) (findByIdFails f) ;;;
  fun w => (Ok (reservations w !! id), w).

(** The delay Node gives a timer: a delay below 1 or above [2^31 - 1]
    milliseconds is set to 1. *)
Definition TIMEOUT_MAX : Z := 2147483647.

Definition timerDelay (ms : Z) : Z :=
  if (1 <=? ms) && (ms <=? TIMEOUT_MAX) then ms else 1.

Definition setTimeout (id : string) (ms : Z) : M unit :=
  fun w =>
    let fireAt := now w + timerDelay ms in
    (Ok tt, set_timers (timers w ++ [(id, fireAt)])
              (logCall (SetTimeout id fireAt) w)).

(** ** The service methods *)

(** [getStockLevel], lines 32-75. *)
Definition getStockLevel (p : string) (wh : option string) : M Z :=
  let key := cacheKey p wh in
  tryCatch
    (cachedStock <- cacheManager_get key ;;
     match cacheHit cachedStock with
     | Some n => ret n
     | None =>
         result <- inventoryItemModel_aggregate p wh ;;
         let availableStock :=
           match result with
           | row :: _ => totalStock row - g_reserved row
           | [] => 0
           end in
         cacheManager_set key availableStock CACHE_TTL ;;;
         ret availableStock
     end)
    (fun error => throw error).

(** The [switch] of [updateStock], lines 93-120: the new
    [(quantity, reserved)] or the error thrown. *)
Definition switchOperation (operation : string) (item : InventoryItem)
    (amount : Z) : Result (Z * Z) :=
  let newQuantity := quantity item in
  let newReserved := reserved item in
  if String.eqb operation "ADD" then
    Ok (newQuantity + amount, newReserved)
  else if String.eqb operation "SUBTRACT" then
    if newQuantity - reserved item <? amount
    then Throw (JsError "Insufficient stock available")
    else Ok (newQuantity - amount, newReserved)
  else if String.eqb operation "RESERVE" then
    if newQuantity - reserved item <? amount
    then Throw (JsError "Insufficient stock to reserve")
    else Ok (newQuantity, newReserved + amount)
  else if String.eqb operation "RELEASE" then
    if newReserved <? amount
    then Throw (JsError "Cannot release more than reserved")
    else Ok (newQuantity, newReserved - amount)
  else Throw (JsError "Invalid operation").

(** [clearStockCache], lines 237-244. *)
Definition clearStockCacheKeys (p : string) (wh : option string)
    : list string :=
  ("stock:" +:+ p +:+ ":all") ::
  match truthy wh with
  | Some w => ["stock:" +:+ p +:+ ":" +:+ w]
  | None => []
  end.

Definition clearStockCache (p : string) (wh : option string) : M unit :=
  promiseAll (map cacheManager_del (clearStockCacheKeys p wh)).

(** Reading a property of [null]. *)
Definition deref {A} (o : option A) : M A :=
  match o with
  | Some a => ret a
  | None => throw (JsError "TypeError: Cannot read properties of null")
  end.

(** [updateStock], lines 77-197. *)
Definition updateStock (dto : UpdateStockDto) : M InventoryItem :=
  callExt StartSession false ;;;
  tryFinally
    (tryCatch
       (startTransaction ;;;
        item <- findOneAndUpsert (dto_productId dto) (dto_warehouseId dto) ;;
        counters <- liftResult
          (switchOperation (dto_operation dto) item (dto_quantity dto)) ;;
        let newQuantity := fst counters in
        let newReserved := snd counters in
        newLastUpdated <- dateNow ;;
        historyTimestamp <- dateNow ;;
        item' <- findOneAndUpdate
          (dto_productId dto, dto_warehouseId dto)
          newQuantity newReserved newLastUpdated
          {| h_operation := dto_operation dto;
             h_quantity := dto_quantity dto;
             h_reason := dto_reason dto;
             h_referenceId := dto_referenceId dto;
             h_timestamp := historyTimestamp |} ;;
        recordTimestamp <- dateNow ;;
        stockUpdate <- inventoryItemModel_constructor_new
          {| su_productId := dto_productId dto;
             su_warehouseId := dto_warehouseId dto;
             su_operation := dto_operation dto;
             su_quantity := dto_quantity dto;
             su_newQuantity := newQuantity;
             su_newReserved := newReserved;
             su_reason := dto_reason dto;
             su_referenceId := dto_referenceId dto;
             su_timestamp := recordTimestamp |} ;;
        stockUpdate_save stockUpdate ;;;
        clearStockCache (dto_productId dto) (Some (dto_warehouseId dto)) ;;;
        let availableStock := newQuantity - newReserved in
        updated <- deref item' ;;
        (if availableStock <=? lowStockThreshold updated then
           eventEmitter_emit "stock.low"
             {| ev_productId := dto_productId dto;
                ev_warehouseId := dto_warehouseId dto;
                ev_availableStock := availableStock;
                ev_threshold := lowStockThreshold updated |}
         else ret tt) ;;;
        jobTimestamp <- dateNow ;;
        stockQueue_add "process-stock-update"
          {| job_productId := dto_productId dto;
             job_warehouseId := dto_warehouseId dto;
             job_operation := dto_operation dto;
             job_quantity := dto_quantity dto;
             job_timestamp := jobTimestamp |} ;;;
        commitTransaction ;;;
        ret updated)
       (fun error => abortTransaction ;;; throw error))
    endSession.

(** [reserveStock], lines 199-235. *)
Definition reserveStock (dto : ReserveStockDto) : M string :=
  let ttlSeconds := default RESERVATION_TTL (rs_ttlSeconds dto) in
  availableStock <-
    getStockLevel (rs_productId dto) (Some (rs_warehouseId dto)) ;;
  if availableStock <? rs_quantity dto then
    throw (JsError ("Insufficient stock. Available: "
                    +:+ pretty availableStock
                    +:+ ", Requested: " +:+ pretty (rs_quantity dto)))
  else
    t <- dateNow ;;
    id <- newObjectId ;;
    reservation_save id
      {| r_productId := rs_productId dto;
         r_quantity := rs_quantity dto;
         r_warehouseId := rs_warehouseId dto;
         r_expiresAt := t + ttlSeconds * 1000;
         r_status := ACTIVE |} ;;;
    updateStock
      {| dto_productId := rs_productId dto;
         dto_warehouseId := rs_warehouseId dto;
         dto_quantity := rs_quantity dto;
         dto_operation := "RESERVE";
         dto_reason := Some "Order reservation";
         dto_referenceId := Some id |} ;;;
    setTimeout id (ttlSeconds * 1000) ;;;
    ret id.

(** [checkReservationExpiry], lines 246-265. *)
Definition checkReservationExpiry (reservationId : string) : M unit :=
  reservation <- stockReservationModel_findById reservationId ;;
  match reservation with
  | Some r =>
      match r_status r with
      | ACTIVE =>
          reservation_save reservationId
            {| r_productId := r_productId r;
               r_quantity := r_quantity r;
               r_warehouseId := r_warehouseId r;
               r_expiresAt := r_expiresAt r;
               r_status := EXPIRED |} ;;;
          updateStock
            {| dto_productId := r_productId r;
               dto_warehouseId := r_warehouseId r;
               dto_quantity := r_quantity r;
               dto_operation := "RELEASE";
               dto_reason := Some "Reservation expired";
               dto_referenceId := Some reservationId |} ;;;
          ret tt
      | _ => ret tt
      end
  | None => ret tt
  end.

End Service.

(** ** What one [updateStock] call does *)

Definition keyOf (dto : UpdateStockDto) : string * string :=
  (dto_productId dto, dto_warehouseId dto).

(** The item the transaction reads: the stored one, or the zeroed one the
    upsert creates. *)
Definition currentItem (dto : UpdateStockDto) (w : World) : InventoryItem :=
  default (newItem (dto_productId dto) (dto_warehouseId dto) (now w))
          (items w !! keyOf dto).

(** The error a run of [updateStock] ends with: the rejection of the
    upsert, the error of the [switch], the rejection of the update, and in
    every other run the error of line 143. *)
Definition updateStockError (f : Faults) (dto : UpdateStockDto) (w : World)
    : Error :=
  if upsertFails f
  then Rejected (FindOneAndUpsert (dto_productId dto) (dto_warehouseId dto))
  else
    match switchOperation (dto_operation dto) (currentItem dto w)
            (dto_quantity dto) with
    | Throw e => e
    | Ok _ =>
        if updateFails f
        then Rejected (FindOneAndUpdate (dto_productId dto)
                         (dto_warehouseId dto))
        else stockUpdateRecordError
    end.

(** The calls of a run, in the order they are made. *)
Definition updateStockCalls (f : Faults) (dto : UpdateStockDto) (w : World)
    : list Call :=
  [StartSession; StartTransaction;
   FindOneAndUpsert (dto_productId dto) (dto_warehouseId dto)]
  ++ (if upsertFails f then []
      else
        match switchOperation (dto_operation dto) (currentItem dto w)
                (dto_quantity dto) with
        | Throw _ => []
        | Ok _ => [FindOneAndUpdate (dto_productId dto) (dto_warehouseId dto)]
        end)
  ++ [AbortTransaction; EndSession].

(** What a run of [updateStock] leaves as it was. *)
Definition storesUntouched (w w' : World) : Prop :=
  items w' = items w /\ audits w' = audits w
  /\ reservations w' = reservations w /\ session w' = None
  /\ cache w' = cache w /\ queue w' = queue w /\ emitted w' = emitted w
  /\ timers w' = timers w /\ nextId w' = nextId w.



(** ** Worlds to run the service on *)

Definition emptyWorld : World :=
  {| items := ∅; audits := []; reservations := ∅; session := None;
     cache := ∅; now := 0; ticks := []; queue := []; emitted := [];
     timers := []; nextId := 0%N; calls := [] |}.

Definition mkItem (p w : string) (q r : Z) : InventoryItem :=
  {| productId := p; warehouseId := w; quantity := q; reserved := r;
     lowStockThreshold := 10; isActive := true; history := [];
     lastUpdated := 0 |}.

Definition withItem (it : InventoryItem) (w : World) : World :=
  set_items (<[(productId it, warehouseId it) := it]> (items w)) w.

Definition mkDto (p w : string) (q : Z) (op : string) : UpdateStockDto :=
  {| dto_productId := p; dto_warehouseId := w; dto_quantity := q;
     dto_operation := op; dto_reason := None; dto_referenceId := None |}.

Definition scenarioA : World := withItem (mkItem "P1" "W1" 100 0) emptyWorld.
Definition scenarioB : World := withItem (mkItem "P1" "W1" 10 5) emptyWorld.

Definition scenarioD : World :=
  withItem (mkItem "P1" "W2" 40 15) (withItem (mkItem "P1" "W1" 100 20) emptyWorld).

(** The record and the call of the unit test 'should add stock
    correctly'. *)
Definition testWorld : World :=
  withItem (mkItem "prod123" "warehouse1" 50 10) emptyWorld.

Definition testAdd : UpdateStockDto :=
  {| dto_productId := "prod123"; dto_warehouseId := "warehouse1";
     dto_quantity := 20; dto_operation := "ADD";
     dto_reason := Some "Restock"; dto_referenceId := None |}.

(** No queue: [stockQueue.add] rejects. *)
Definition queueDown : Faults :=
  {| cacheGetFails := false; cacheMissIsNull := false;
     aggregateFails := false; cacheSetFails := false;
     upsertFails := false; updateFails := false; auditSaveFails := false;
     cacheDelFails := fun _ => false; emitFails := false;
     queueAddFails := true; commitFails := false;
     reservationSaveFails := false; findByIdFails := false |}.

(** The cache store answers [null] for a key it does not hold. *)
Definition nullOnMiss : Faults :=
  {| cacheGetFails := false; cacheMissIsNull := true;
     aggregateFails := false; cacheSetFails := false;
     upsertFails := false; updateFails := false; auditSaveFails := false;
     cacheDelFails := fun _ => false; emitFails := false;
     queueAddFails := false; commitFails := false;
     reservationSaveFails := false; findByIdFails := false |}.

(** A cache entry that outlives the scenarios. *)
Definition cached (v : Z) : CacheEntry :=
  {| ce_value := v; ce_expiresAt := 1000000 |}.

Definition withCache (key : string) (v : Z) (w : World) : World :=
  set_cache (<[key := cached v]> (cache w)) w.


(** ** Properties of the stock records *)

(** [0 <= reserved <= quantity] *)
Definition invariant (it : InventoryItem) : Prop :=
  0 <= reserved it <= quantity it.

Definition available (it : InventoryItem) : Z := quantity it - reserved it.

Definition storeInvariant (w : World) : Prop :=
  forall k it, items w !! k = Some it -> invariant it.

Definition zeroed (it : InventoryItem) : Prop :=
  quantity it = 0 /\ reserved it = 0.

(** A sequence of [updateStock] calls, each with its own rejected calls. *)
Fixpoint runOps (ops : list (Faults * UpdateStockDto)) (w : World) : World :=
  match ops with
  | [] => w
  | (f, dto) :: rest => runOps rest (snd (updateStock f dto w))
  end.

(** The available stock in the words of the specification:
    [sum(quantity) - sum(reserved)] over the active records of the product,
    of the warehouse too when one is given (an empty [warehouseId] is not
    one, as in the controller's optional query parameter). *)
Definition isMatching (p : string) (wh : option string)
    (it : InventoryItem) : Prop :=
  isActive it = true /\ productId it = p
  /\ match truthy wh with
     | Some w => warehouseId it = w
     | None => True
     end.

#[global] Instance isMatching_dec p wh it : Decision (isMatching p wh it).
Proof. unfold isMatching. destruct (truthy wh); apply _. Defined.

Definition specAvailable (p : string) (wh : option string) (w : World) : Z :=
  let records := filter (isMatching p wh) (documents w) in
  sumOf quantity records - sumOf reserved records.

(** ** Reservations *)

Definition expired (r : StockReservation) : StockReservation :=
  {| r_productId := r_productId r; r_quantity := r_quantity r;
     r_warehouseId := r_warehouseId r; r_expiresAt := r_expiresAt r;
     r_status := EXPIRED |}.

(** The [updateStock] argument of [checkReservationExpiry]. *)
Definition releaseDto (reservationId : string) (r : StockReservation)
    : UpdateStockDto :=
  {| dto_productId := r_productId r; dto_warehouseId := r_warehouseId r;
     dto_quantity := r_quantity r; dto_operation := "RELEASE";
     dto_reason := Some "Reservation expired";
     dto_referenceId := Some reservationId |}.

(** The [updateStock] argument of [reserveStock]. *)
Definition reserveDto (id : string) (dto : ReserveStockDto) : UpdateStockDto :=
  {| dto_productId := rs_productId dto; dto_warehouseId := rs_warehouseId dto;
     dto_quantity := rs_quantity dto; dto_operation := "RESERVE";
     dto_reason := Some "Order reservation"; dto_referenceId := Some id |}.

(** The reservation [reserveStock] persists. *)
Definition activeReservation (dto : ReserveStockDto) (t : Z)
    : StockReservation :=
  {| r_productId := rs_productId dto; r_quantity := rs_quantity dto;
     r_warehouseId := rs_warehouseId dto;
     r_expiresAt := t + default RESERVATION_TTL (rs_ttlSeconds dto) * 1000;
     r_status := ACTIVE |}.

(** The world once [reserveStock] has saved the reservation, seen from the
    world [w1] that [getStockLevel] left. *)
Definition reservationSaved (dto : ReserveStockDto) (w1 : World) : World :=
  let id := pretty (nextId w1) in
  set_reservations (<[id := activeReservation dto (now w1)]> (reservations w1))
    (logCall (SaveReservation id)
       (set_nextId (N.succ (nextId w1)) (tick w1))).

Definition reserveP1 : ReserveStockDto :=
  {| rs_productId := "P1"; rs_quantity := 20; rs_warehouseId := "W1";
     rs_ttlSeconds := Some 1 |}.

Definition withReservation (id : string) (r : StockReservation) (w : World)
    : World :=
  set_reservations (<[id := r]> (reservations w)) w.

(** ** Outcomes *)

(** Modelled from the spec: the error taxonomy of section 7.  The service
    throws plain [Error]s; the message tells the kinds apart. *)
Inductive ErrorKind :=
| InsufficientStockError
| InvalidReleaseError
| InvalidOperationError
| TransientStoreError.

Definition errorKind (e : Error) : ErrorKind :=
  match e with
  | JsError m =>
      if String.eqb m "Insufficient stock available" then InsufficientStockError
      else if String.eqb m "Insufficient stock to reserve"
      then InsufficientStockError
      else if String.prefix "Insufficient stock. " m
      then InsufficientStockError
      else if String.eqb m "Cannot release more than reserved"
      then InvalidReleaseError
      else if String.eqb m "Invalid operation" then InvalidOperationError
      else TransientStoreError
  | Rejected _ => TransientStoreError
  end.

(** The call throws an error of the given kind. *)
Definition failsWith {A} (out : Result A * World) (kind : ErrorKind) : Prop :=
  exists e, fst out = Throw e /\ errorKind e = kind.

(** ** Definitions used by the statements *)

(** Five operations on (P1, W1). *)
Definition exampleOps : list (Faults * UpdateStockDto) :=
  [(noFaults, mkDto "P1" "W1" 100 "ADD");
   (noFaults, mkDto "P1" "W1" 30 "RESERVE");
   (queueDown, mkDto "P1" "W1" 50 "SUBTRACT");
   (noFaults, mkDto "P1" "W1" 200 "RELEASE");
   (noFaults, mkDto "P1" "W1" 5 "ADD")].

(** A store with one freshly created record. *)
Definition freshStore : World := withItem (mkItem "P1" "W1" 0 0) emptyWorld.

(** What lines 52-65 compute from the store. *)
Definition aggregated (p : string) (wh : option string) (w : World) : Z :=
  match aggregateRows p wh (documents w) with
  | row :: _ => totalStock row - g_reserved row
  | [] => 0
  end.

(** The world a cache miss of [getStockLevel] leaves. *)
Definition afterMiss (p : string) (wh : option string) (w : World) : World :=
  set_cache (<[cacheKey p wh :=
                 {| ce_value := aggregated p wh w;
                    ce_expiresAt := now w + CACHE_TTL |}]> (cache w))
    (logCall (CacheSet (cacheKey p wh) (aggregated p wh w) CACHE_TTL)
       (logCall (Aggregate p wh)
          (logCall (CacheGet (cacheKey p wh)) w))).

(** Scenario D one second after the first [getStockLevel] of the product:
    the entry written at time 0 is in the cache. *)
Definition scenarioDLater : World :=
  set_now 1000
    (set_cache (<["stock:P1:all" :=
                    {| ce_value := 105; ce_expiresAt := 300 |}]> (cache scenarioD))
       scenarioD).

(** Scenario C at the time the timer fires: 20 units of (P1, W1) are held
    for the ACTIVE reservation "0". *)
Definition reservationScenario : World :=
  withReservation "0"
    {| r_productId := "P1"; r_quantity := 20; r_warehouseId := "W1";
       r_expiresAt := 1000; r_status := ACTIVE |}
    (withItem (mkItem "P1" "W1" 100 20) emptyWorld).

(** The steps of [reserveStock noFaults reserveP1 scenarioA]. *)
Definition afterPrecheck : World := Eval vm_compute in
  snd (getStockLevel noFaults "P1" (Some "W1") scenarioA).

Definition afterFailedReserve : World := Eval vm_compute in
    snd (updateStock noFaults (reserveDto "0" reserveP1)
           (reservationSaved reserveP1 afterPrecheck)).

(** The world once [checkReservationExpiry] has marked the reservation. *)
Definition markedExpired (reservationId : string) (r : StockReservation)
    (w : World) : World :=
  set_reservations (<[reservationId := expired r]> (reservations w))
    (logCall (SaveReservation reservationId)
       (logCall (FindById reservationId) w)).

(** ** Definitions used by the further properties *)

(** Every record is stored under its own [productId] and [warehouseId]. *)
Definition wellKeyed (w : World) : Prop :=
  forall p wh it,
    items w !! (p, wh) = Some it -> productId it = p /\ warehouseId it = wh.

(** What [updateStock] never changes in a record. *)
Definition sameIdentity (it it' : InventoryItem) : Prop :=
  productId it' = productId it /\ warehouseId it' = warehouseId it
  /\ lowStockThreshold it' = lowStockThreshold it
  /\ isActive it' = isActive it.

(** The cache is down: reads are rejected. *)
Definition cacheDown : Faults :=
  {| cacheGetFails := true; cacheMissIsNull := false;
     aggregateFails := false; cacheSetFails := false;
     upsertFails := false; updateFails := false; auditSaveFails := false;
     cacheDelFails := fun _ => false; emitFails := false;
     queueAddFails := false; commitFails := false;
     reservationSaveFails := false; findByIdFails := false |}.

(** The ACTIVE reservation "0" holds 20 units of (P1, W1), of which none
    is reserved any more. *)
Definition releasedEarly : World :=
  withReservation "0"
    {| r_productId := "P1"; r_quantity := 20; r_warehouseId := "W1";
       r_expiresAt := 1000; r_status := ACTIVE |}
    scenarioA.

(** A warehouse named "all" holds 3 units; the product's total, 103, is
    cached under the aggregate key. *)
Definition warehouseNamedAll : World :=
  withCache "stock:P1:all" 103 (withItem (mkItem "P1" "all" 3 0) scenarioA).

(** * Proofs *)

Local Opaque String.append.
Arguments truthy : simpl never.

(** Unfolds the body of [updateStock] down to the collaborators' calls. *)
Ltac unfold_updateStock :=
  unfold updateStock, tryFinally, tryCatch, bind, startTransaction,
    findOneAndUpsert, findOneAndUpdate, inventoryItemModel_constructor_new,
    abortTransaction, endSession, callExt, modify,
    liftResult, dateNow, ret, throw, bind.

(** Every run of [updateStock] throws: the error, what the run leaves as it
    was, and the calls it has made. *)
Lemma updateStock_run f dto w :
  exists w',
    updateStock f dto w = (Throw (updateStockError f dto w), w')
    /\ storesUntouched w w'
    /\ calls w' = calls w ++ updateStockCalls f dto w.
Proof.
  unfold_updateStock.
  unfold updateStockError, updateStockCalls, storesUntouched, currentItem,
    keyOf.
  cbn.
  destruct (upsertFails f); cbn.
  { eexists. split; [reflexivity|]. cbn. rewrite <- !app_assoc.
    by repeat split. }
  destruct (items w !! (dto_productId dto, dto_warehouseId dto))
    as [cur|] eqn:Hcur; cbn.
  all: destruct (switchOperation _ _ _) as [c|e] eqn:Hsw; cbn.
  all: try (destruct (updateFails f); cbn).
  all: rewrite ?Hcur, ?lookup_insert_eq; cbn.
  all: eexists; (split; [reflexivity|]); cbn; rewrite <- !app_assoc.
  all: by repeat split.
Qed.

Lemma updateStock_throws f dto w :
  fst (updateStock f dto w) = Throw (updateStockError f dto w).
Proof. by destruct (updateStock_run f dto w) as (w' & -> & _). Qed.

Lemma updateStock_untouched f dto w :
  storesUntouched w (snd (updateStock f dto w)).
Proof. by destruct (updateStock_run f dto w) as (w' & -> & ? & _). Qed.

Lemma updateStock_items f dto w :
  items (snd (updateStock f dto w)) = items w.
Proof. by destruct (updateStock_untouched f dto w) as (? & _). Qed.

Lemma currentItem_stored dto w it :
  items w !! keyOf dto = Some it -> currentItem dto w = it.
Proof. unfold currentItem. by intros ->. Qed.


(** ** The operations of [updateStock] *)

(** C3, as the code runs: on a stored record with [0 <= reserved <= quantity]
    and for a positive amount, with the store answering.  The refusals of the
    [switch] are those of the claim: SUBTRACT and RESERVE of more than the
    available stock throw an insufficient-stock error, RELEASE of more than
    is reserved throws the release error, any other operation the
    invalid-operation error.  Every operation the [switch] lets through,
    every ADD among them, throws at line 143 where the stock-update record
    is built.  No run changes the record. *)
Theorem updateStock_operations_as_shipped (f : Faults) (p wh : string)
    (reason ref : option string) (w : World) (it : InventoryItem) (n : Z) :
  items w !! (p, wh) = Some it ->
  invariant it ->
  0 < n ->
  upsertFails f = false -> updateFails f = false ->
  let run op :=
    updateStock f
      {| dto_productId := p; dto_warehouseId := wh; dto_quantity := n;
         dto_operation := op; dto_reason := reason;
         dto_referenceId := ref |} w in
  let q := quantity it in
  let r := reserved it in
  (q - r < n -> failsWith (run "SUBTRACT") InsufficientStockError)
  /\ (q - r < n -> failsWith (run "RESERVE") InsufficientStockError)
  /\ (r < n -> failsWith (run "RELEASE") InvalidReleaseError)
  /\ (forall op, op ∉ ["ADD"; "SUBTRACT"; "RESERVE"; "RELEASE"] ->
        failsWith (run op) InvalidOperationError)
  /\ fst (run "ADD") = Throw stockUpdateRecordError
  /\ (n <= q - r -> fst (run "SUBTRACT") = Throw stockUpdateRecordError)
  /\ (n <= q - r -> fst (run "RESERVE") = Throw stockUpdateRecordError)
  /\ (n <= r -> fst (run "RELEASE") = Throw stockUpdateRecordError)
  /\ forall op, items (snd (run op)) !! (p, wh) = Some it.
Proof.
  intros Hit Hinv Hn Hups Hupd run q r.
  assert (Herr : forall op,
    fst (run op) =
    Throw (match switchOperation op it n with
           | Throw e => e
           | Ok _ => stockUpdateRecordError
           end)).
  { intros op. unfold run. rewrite updateStock_throws.
    unfold updateStockError. rewrite Hups, Hupd.
    by rewrite (currentItem_stored _ w it) by exact Hit. }
  subst q r.
  repeat split.
  - intros Hlt. eexists. split; [apply Herr|]. unfold switchOperation. cbn.
    by destruct (Z.ltb_spec (quantity it - reserved it) n); [|lia].
  - intros Hlt. eexists. split; [apply Herr|]. unfold switchOperation. cbn.
    by destruct (Z.ltb_spec (quantity it - reserved it) n); [|lia].
  - intros Hlt. eexists. split; [apply Herr|]. unfold switchOperation. cbn.
    by destruct (Z.ltb_spec (reserved it) n); [|lia].
  - intros op Hop. eexists. split; [apply Herr|].
    rewrite !not_elem_of_cons in Hop.
    destruct Hop as (H1 & H2 & H3 & H4 & _).
    unfold switchOperation.
    apply String.eqb_neq in H1, H2, H3, H4. by rewrite H1, H2, H3, H4.
  - by rewrite Herr.
  - intros Hle. rewrite Herr. unfold switchOperation. cbn.
    by destruct (Z.ltb_spec (quantity it - reserved it) n); [lia|].
  - intros Hle. rewrite Herr. unfold switchOperation. cbn.
    by destruct (Z.ltb_spec (quantity it - reserved it) n); [lia|].
  - intros Hle. rewrite Herr. unfold switchOperation. cbn.
    by destruct (Z.ltb_spec (reserved it) n); [lia|].
  - intros op. unfold run. by rewrite updateStock_items.
Qed.

(** The unit test 'should add stock correctly': ADD 20 on the record with
    quantity 50 and reserved 10 throws, and the record keeps quantity 50. *)
Lemma updateStock_operations_as_shipped_witness :
  fst (updateStock noFaults testAdd testWorld) = Throw stockUpdateRecordError
  /\ items (snd (updateStock noFaults testAdd testWorld))
       !! ("prod123", "warehouse1")
     = Some (mkItem "prod123" "warehouse1" 50 10).
Proof.
  destruct (updateStock_operations_as_shipped noFaults "prod123" "warehouse1"
              (Some "Restock") None testWorld
              (mkItem "prod123" "warehouse1" 50 10) 20)
    as (_ & _ & _ & _ & Hadd & _ & _ & _ & Hitems).
  - reflexivity.
  - unfold invariant. cbn. lia.
  - lia.
  - reflexivity.
  - reflexivity.
  - split; [exact Hadd | exact (Hitems "ADD")].
Defined.

(** ** Invariant, failures, round trip *)

Lemma updateStock_preserves_invariant f dto w :
  storeInvariant w -> storeInvariant (snd (updateStock f dto w)).
Proof.
  intros Hw k it Hk. rewrite updateStock_items in Hk. by apply (Hw k).
Qed.

Lemma runOps_preserves_invariant ops :
  forall w, storeInvariant w -> storeInvariant (runOps ops w).
Proof.
  induction ops as [|[f dto] ops IH]; intros w Hw; [done|].
  change (runOps ((f, dto) :: ops) w)
    with (runOps ops (snd (updateStock f dto w))).
  apply IH. by apply updateStock_preserves_invariant.
Qed.

(** C4: after any sequence of [updateStock] calls with positive amounts,
    whatever calls are rejected on the way, started on a store whose records
    are zeroed (the empty store among them), every stored record has
    [0 <= reserved <= quantity], and so a non-negative available stock. *)
Theorem invariant_reachable (ops : list (Faults * UpdateStockDto))
    (w0 : World) (k : string * string) (it : InventoryItem) :
  (forall k0 it0, items w0 !! k0 = Some it0 -> zeroed it0) ->
  Forall (fun op => 0 < dto_quantity (snd op)) ops ->
  items (runOps ops w0) !! k = Some it ->
  0 <= reserved it <= quantity it /\ 0 <= available it.
Proof.
  intros Hzero Hops Hk.
  assert (Hinv : invariant it).
  { apply (runOps_preserves_invariant ops w0) with (k := k); [|done].
    intros k0 it0 H0. destruct (Hzero k0 it0 H0) as [Hq Hr].
    unfold invariant. lia. }
  unfold invariant, available in *. lia.
Qed.

Lemma invariant_reachable_witness :
  items (runOps exampleOps freshStore) !! ("P1", "W1")
    = Some (mkItem "P1" "W1" 0 0)
  /\ 0 <= reserved (mkItem "P1" "W1" 0 0) <= quantity (mkItem "P1" "W1" 0 0)
  /\ 0 <= available (mkItem "P1" "W1" 0 0).
Proof.
  assert (Hrun : items (runOps exampleOps freshStore) !! ("P1", "W1")
                 = Some (mkItem "P1" "W1" 0 0)) by (vm_compute; reflexivity).
  split; [exact Hrun|].
  apply (invariant_reachable exampleOps freshStore ("P1", "W1")
           (mkItem "P1" "W1" 0 0)).
  - intros k0 it0 H0.
    destruct (decide (k0 = ("P1", "W1"))) as [->|Hne].
    + vm_compute in H0. injection H0 as <-. by split.
    + unfold freshStore, withItem in H0. cbn in H0.
      rewrite lookup_insert_ne in H0 by done. by rewrite lookup_empty in H0.
  - repeat constructor.
  - exact Hrun.
Defined.

(** C5: when [updateStock] throws, whatever the cause (the [switch], a
    rejected call, or line 143), the error reaches the caller and the
    committed inventory items (counters and history) and stock-update
    records are those from before the call. *)
Theorem updateStock_failure_atomic (f : Faults) (dto : UpdateStockDto)
    (w w' : World) (e : Error) :
  updateStock f dto w = (Throw e, w') ->
  items w' = items w /\ audits w' = audits w.
Proof.
  intros Hrun.
  pose proof (updateStock_untouched f dto w) as Hout.
  rewrite Hrun in Hout. cbn [snd] in Hout.
  destruct Hout as (Hitems & Haudits & _). done.
Qed.

Lemma updateStock_failure_atomic_witness :
  fst (updateStock noFaults (mkDto "P1" "W1" 6 "SUBTRACT") scenarioB)
    = Throw (JsError "Insufficient stock available")
  /\ items (snd (updateStock noFaults (mkDto "P1" "W1" 6 "SUBTRACT") scenarioB))
       = items scenarioB
  /\ audits (snd (updateStock noFaults (mkDto "P1" "W1" 6 "SUBTRACT") scenarioB))
       = audits scenarioB.
Proof.
  split; [vm_compute; reflexivity|].
  apply (updateStock_failure_atomic noFaults (mkDto "P1" "W1" 6 "SUBTRACT")
           scenarioB _ (JsError "Insufficient stock available")).
  vm_compute. reflexivity.
Defined.

(** C8, as the code runs: on a stored record with
    [0 <= reserved <= quantity] and for [0 < n <= quantity - reserved], with
    the store answering, RESERVE [n] throws at line 143 and the record keeps
    its counters: nothing is held.  RELEASE [n] after it throws too, the
    release error when fewer than [n] units were reserved at the start, the
    error of line 143 otherwise, and the record still has the counters of
    the start. *)
Theorem reserve_holds_nothing (f : Faults) (p wh : string) (w : World)
    (it : InventoryItem) (n : Z) :
  items w !! (p, wh) = Some it ->
  invariant it ->
  0 < n <= quantity it - reserved it ->
  upsertFails f = false -> updateFails f = false ->
  let w1 := snd (updateStock f (mkDto p wh n "RESERVE") w) in
  let out := updateStock f (mkDto p wh n "RELEASE") w1 in
  fst (updateStock f (mkDto p wh n "RESERVE") w) = Throw stockUpdateRecordError
  /\ items w1 !! (p, wh) = Some it
  /\ (reserved it < n ->
      fst out = Throw (JsError "Cannot release more than reserved"))
  /\ (n <= reserved it -> fst out = Throw stockUpdateRecordError)
  /\ items (snd out) !! (p, wh) = Some it.
Proof.
  intros Hit Hinv Hn Hups Hupd w1 out.
  assert (Hit1 : items w1 !! (p, wh) = Some it).
  { unfold w1. by rewrite updateStock_items. }
  split; [|split; [done|split; [|split]]].
  - rewrite updateStock_throws. unfold updateStockError.
    rewrite Hups, Hupd, (currentItem_stored _ w it) by exact Hit.
    unfold switchOperation. cbn.
    by destruct (Z.ltb_spec (quantity it - reserved it) n); [lia|].
  - intros Hlt. unfold out. rewrite updateStock_throws.
    unfold updateStockError.
    rewrite Hups, (currentItem_stored _ w1 it) by exact Hit1.
    unfold switchOperation. cbn.
    by destruct (Z.ltb_spec (reserved it) n); [|lia].
  - intros Hle. unfold out. rewrite updateStock_throws.
    unfold updateStockError.
    rewrite Hups, Hupd, (currentItem_stored _ w1 it) by exact Hit1.
    unfold switchOperation. cbn.
    by destruct (Z.ltb_spec (reserved it) n); [lia|].
  - unfold out. by rewrite updateStock_items.
Qed.

(** Scenario A: RESERVE 30 on quantity 100, reserved 0 throws and holds
    nothing; the RELEASE 30 that follows is refused. *)
Lemma reserve_holds_nothing_witness :
  let w1 := snd (updateStock noFaults (mkDto "P1" "W1" 30 "RESERVE") scenarioA) in
  fst (updateStock noFaults (mkDto "P1" "W1" 30 "RESERVE") scenarioA)
    = Throw stockUpdateRecordError
  /\ items w1 !! ("P1", "W1") = Some (mkItem "P1" "W1" 100 0)
  /\ fst (updateStock noFaults (mkDto "P1" "W1" 30 "RELEASE") w1)
     = Throw (JsError "Cannot release more than reserved").
Proof.
  destruct (reserve_holds_nothing noFaults "P1" "W1" scenarioA
              (mkItem "P1" "W1" 100 0) 30)
    as (Hres & Hit & Hrel & _).
  - reflexivity.
  - unfold invariant. cbn. lia.
  - cbn. lia.
  - reflexivity.
  - reflexivity.
  - split; [exact Hres | split; [exact Hit | apply Hrel; cbn; lia]].
Defined.

(** ** [getStockLevel] *)

Lemma cacheAnswer_number f key w n :
  cacheAnswer f key w = CNumber n <-> cacheLookup key w = CNumber n.
Proof.
  unfold cacheAnswer.
  destruct (cacheLookup key w), (cacheMissIsNull f); split; congruence.
Qed.

Lemma cacheAnswer_miss f key w :
  cacheHit (cacheAnswer f key w) = None <-> cacheHit (cacheLookup key w) = None.
Proof.
  unfold cacheAnswer.
  by destruct (cacheLookup key w), (cacheMissIsNull f).
Qed.

Lemma getStockLevel_answer_hit f p wh w n :
  cacheGetFails f = false ->
  cacheAnswer f (cacheKey p wh) w = CNumber n ->
  getStockLevel f p wh w = (Ok n, logCall (CacheGet (cacheKey p wh)) w).
Proof.
  intros Hf Hhit.
  unfold getStockLevel, cacheManager_get, callExt, tryCatch, bind.
  rewrite Hf. cbv beta iota.
  change (cacheAnswer f (cacheKey p wh) (logCall (CacheGet (cacheKey p wh)) w))
    with (cacheAnswer f (cacheKey p wh) w).
  by rewrite Hhit.
Qed.

Lemma getStockLevel_answer_miss f p wh w :
  cacheGetFails f = false -> aggregateFails f = false ->
  cacheSetFails f = false ->
  cacheHit (cacheAnswer f (cacheKey p wh) w) = None ->
  getStockLevel f p wh w = (Ok (aggregated p wh w), afterMiss p wh w).
Proof.
  intros Hg Ha Hs Hmiss.
  unfold getStockLevel, cacheManager_get, cacheManager_set,
    inventoryItemModel_aggregate, callExt, modify, ret, tryCatch, bind.
  rewrite Hg, Ha, Hs. cbv beta iota.
  change (cacheAnswer f (cacheKey p wh) (logCall (CacheGet (cacheKey p wh)) w))
    with (cacheAnswer f (cacheKey p wh) w).
  by rewrite Hmiss.
Qed.

Lemma getStockLevel_hit f p wh w n :
  cacheGetFails f = false ->
  cacheLookup (cacheKey p wh) w = CNumber n ->
  getStockLevel f p wh w = (Ok n, logCall (CacheGet (cacheKey p wh)) w).
Proof.
  intros Hf Hhit. apply getStockLevel_answer_hit; [done|].
  by apply cacheAnswer_number.
Qed.

Lemma getStockLevel_miss f p wh w :
  cacheGetFails f = false -> aggregateFails f = false ->
  cacheSetFails f = false ->
  cacheHit (cacheLookup (cacheKey p wh) w) = None ->
  getStockLevel f p wh w = (Ok (aggregated p wh w), afterMiss p wh w).
Proof.
  intros Hg Ha Hs Hmiss. apply getStockLevel_answer_miss; try done.
  by apply cacheAnswer_miss.
Qed.

Lemma afterMiss_calls p wh w :
  calls (afterMiss p wh w) = calls w ++
    [CacheGet (cacheKey p wh); Aggregate p wh;
     CacheSet (cacheKey p wh) (aggregated p wh w) CACHE_TTL].
Proof. cbn. by rewrite <- !app_assoc. Qed.

Lemma matchQuery_isMatching p wh it :
  matchQuery p wh it = true <-> isMatching p wh it.
Proof.
  unfold matchQuery, isMatching.
  rewrite !andb_true_iff, String.eqb_eq.
  destruct (isActive it), (truthy wh); cbn; rewrite ?String.eqb_eq;
    intuition congruence.
Qed.

Lemma filter_matchQuery p wh l :
  List.filter (matchQuery p wh) l = filter (isMatching p wh) l.
Proof.
  induction l as [|it l IH]; [done|].
  change (List.filter (matchQuery p wh) (it :: l))
    with (if matchQuery p wh it then it :: List.filter (matchQuery p wh) l
          else List.filter (matchQuery p wh) l).
  destruct (matchQuery p wh it) eqn:Hm.
  - rewrite filter_cons_True by (by apply matchQuery_isMatching). by f_equal.
  - rewrite filter_cons_False; [done|].
    intros Hin. apply matchQuery_isMatching in Hin. congruence.
Qed.

Lemma aggregated_specAvailable p wh w :
  aggregated p wh w = specAvailable p wh w.
Proof.
  unfold aggregated, aggregateRows, specAvailable.
  rewrite filter_matchQuery.
  by destruct (filter (isMatching p wh) (documents w)).
Qed.

(** C6, as the code runs: on a cache miss, with the cache and the store
    answering, [getStockLevel] returns [sum(quantity) - sum(reserved)] over
    the active records of the product (and warehouse) and stores it under
    the key with the time-to-live [CACHE_TTL = 300], which the cache takes
    as 300 milliseconds.  In a later world where that entry is in place and
    less than 300 milliseconds have passed, the call returns the same value
    and its only call is the cache read.  Once 300 milliseconds have passed,
    one second later for one, the call reads the store again. *)
Theorem getStockLevel_entry_lives_300ms (f : Faults) (p : string)
    (wh : option string) (w : World) :
  cacheGetFails f = false -> aggregateFails f = false ->
  cacheSetFails f = false ->
  cacheHit (cacheLookup (cacheKey p wh) w) = None ->
  let w1 := snd (getStockLevel f p wh w) in
  fst (getStockLevel f p wh w) = Ok (specAvailable p wh w)
  /\ calls w1 = calls w ++
       [CacheGet (cacheKey p wh); Aggregate p wh;
        CacheSet (cacheKey p wh) (specAvailable p wh w) 300]
  /\ cache w1 !! cacheKey p wh =
       Some {| ce_value := specAvailable p wh w;
               ce_expiresAt := now w + 300 |}
  /\ (forall f2 w2,
       cacheGetFails f2 = false ->
       cache w2 !! cacheKey p wh = cache w1 !! cacheKey p wh ->
       now w2 < now w + 300 ->
       getStockLevel f2 p wh w2 =
         (Ok (specAvailable p wh w),
          logCall (CacheGet (cacheKey p wh)) w2))
  /\ (forall f2 w2,
       cacheGetFails f2 = false -> aggregateFails f2 = false ->
       cacheSetFails f2 = false ->
       cache w2 !! cacheKey p wh = cache w1 !! cacheKey p wh ->
       now w + 300 <= now w2 ->
       fst (getStockLevel f2 p wh w2) = Ok (specAvailable p wh w2)
       /\ calls (snd (getStockLevel f2 p wh w2)) = calls w2 ++
            [CacheGet (cacheKey p wh); Aggregate p wh;
             CacheSet (cacheKey p wh) (specAvailable p wh w2) 300]).
Proof.
  intros Hg Ha Hs Hmiss w1. subst w1.
  rewrite (getStockLevel_miss f p wh w Hg Ha Hs Hmiss). cbn [fst snd].
  split; [|split; [|split; [|split]]].
  - by rewrite aggregated_specAvailable.
  - by rewrite afterMiss_calls, aggregated_specAvailable.
  - cbn. rewrite lookup_insert_eq. by rewrite aggregated_specAvailable.
  - intros f2 w2 Hg2 Hentry Hnow.
    rewrite <- aggregated_specAvailable.
    apply getStockLevel_hit; [done|].
    unfold cacheLookup. rewrite Hentry. cbn. rewrite lookup_insert_eq. cbn.
    change CACHE_TTL with 300.
    by destruct (Z.ltb_spec (now w2) (now w + 300)); [|lia].
  - intros f2 w2 Hg2 Ha2 Hs2 Hentry Hnow.
    rewrite (getStockLevel_miss f2 p wh w2 Hg2 Ha2 Hs2).
    + cbn [fst snd]. by rewrite afterMiss_calls, aggregated_specAvailable.
    + unfold cacheLookup. rewrite Hentry. cbn. rewrite lookup_insert_eq.
      cbn. change CACHE_TTL with 300.
      by destruct (Z.ltb_spec (now w2) (now w + 300)); [lia|].
Qed.

(** Scenario D: the first call computes 105 from the store at time 0 and
    caches it until time 300; the call made one second later reads the
    store again. *)
Lemma getStockLevel_entry_lives_300ms_witness :
  fst (getStockLevel noFaults "P1" None scenarioD) = Ok 105
  /\ cache (snd (getStockLevel noFaults "P1" None scenarioD)) !! "stock:P1:all"
     = Some {| ce_value := 105; ce_expiresAt := 300 |}
  /\ calls (snd (getStockLevel noFaults "P1" None scenarioDLater))
     = [CacheGet "stock:P1:all"; Aggregate "P1" None;
        CacheSet "stock:P1:all" 105 300].
Proof.
  destruct (getStockLevel_entry_lives_300ms noFaults "P1" None scenarioD)
    as (Hrun & _ & Hentry & _ & Hlater).
  - reflexivity.
  - reflexivity.
  - reflexivity.
  - reflexivity.
  - split; [exact Hrun|]. split; [exact Hentry|].
    destruct (Hlater noFaults scenarioDLater) as [_ Hcalls].
    + reflexivity.
    + reflexivity.
    + reflexivity.
    + vm_compute. reflexivity.
    + cbn. lia.
    + exact Hcalls.
Defined.

(** C10: a cached [0] is a hit.  With the cache read answering, whatever
    number the cache holds for the key, [0] included, [getStockLevel]
    returns that number and its only call is the cache read: no aggregation,
    no cache write, whatever the store holds.  When the cache answers
    [undefined] or [null], and only then, the store is read: the call
    returns the store's figure and writes it to the cache. *)
Theorem cached_zero_is_hit (f : Faults) (p : string) (wh : option string)
    (w : World) :
  cacheGetFails f = false ->
  (cacheAnswer f (cacheKey p wh) w = CNumber 0 ->
     getStockLevel f p wh w = (Ok 0, logCall (CacheGet (cacheKey p wh)) w))
  /\ (forall n, cacheAnswer f (cacheKey p wh) w = CNumber n ->
        getStockLevel f p wh w = (Ok n, logCall (CacheGet (cacheKey p wh)) w))
  /\ (cacheAnswer f (cacheKey p wh) w = CUndefined
      \/ cacheAnswer f (cacheKey p wh) w = CNull ->
      aggregateFails f = false -> cacheSetFails f = false ->
      fst (getStockLevel f p wh w) = Ok (specAvailable p wh w)
      /\ calls (snd (getStockLevel f p wh w)) = calls w ++
           [CacheGet (cacheKey p wh); Aggregate p wh;
            CacheSet (cacheKey p wh) (specAvailable p wh w) CACHE_TTL]).
Proof.
  intros Hg. split; [|split].
  - by apply getStockLevel_answer_hit.
  - intros n. by apply getStockLevel_answer_hit.
  - intros Hmiss Ha Hs.
    rewrite (getStockLevel_answer_miss f p wh w Hg Ha Hs).
    + cbn [fst snd]. by rewrite afterMiss_calls, aggregated_specAvailable.
    + by destruct Hmiss as [-> | ->].
Qed.

(** The store holds 100 units.  With [0] cached the call returns [0] from
    the cache; with nothing cached, the cache answering [undefined] or
    [null], it returns the 100 of the store. *)
Lemma cached_zero_is_hit_witness :
  getStockLevel noFaults "P1" None (withCache "stock:P1:all" 0 scenarioA)
    = (Ok 0, logCall (CacheGet "stock:P1:all")
               (withCache "stock:P1:all" 0 scenarioA))
  /\ fst (getStockLevel noFaults "P1" None scenarioA) = Ok 100
  /\ fst (getStockLevel nullOnMiss "P1" None scenarioA) = Ok 100.
Proof.
  destruct (cached_zero_is_hit noFaults "P1" None
              (withCache "stock:P1:all" 0 scenarioA)) as (Hzero & _ & _).
  { reflexivity. }
  destruct (cached_zero_is_hit noFaults "P1" None scenarioA)
    as (_ & _ & Hundef).
  { reflexivity. }
  destruct (cached_zero_is_hit nullOnMiss "P1" None scenarioA)
    as (_ & _ & Hnull).
  { reflexivity. }
  split; [apply Hzero; reflexivity|].
  split.
  - destruct Hundef as [Hv _]; [left; reflexivity | reflexivity | reflexivity |].
    exact Hv.
  - destruct Hnull as [Hv _]; [right; reflexivity | reflexivity | reflexivity |].
    exact Hv.
Defined.

(** ** [checkReservationExpiry] and [reserveStock] *)

Lemma checkReservationExpiry_active f rid w r :
  reservations w !! rid = Some r -> r_status r = ACTIVE ->
  findByIdFails f = false -> reservationSaveFails f = false ->
  checkReservationExpiry f rid w =
    let (res, w') := updateStock f (releaseDto rid r) (markedExpired rid r w) in
    (match res with Ok _ => Ok tt | Throw e => Throw e end, w').
Proof.
  intros Hr Hactive Hfind Hsave.
  unfold checkReservationExpiry, stockReservationModel_findById,
    reservation_save, callExt, modify, ret, bind.
  rewrite Hfind, Hsave. cbv beta iota.
  change (reservations (logCall (FindById rid) w)) with (reservations w).
  rewrite Hr. cbv beta iota. rewrite Hactive. cbv beta iota.
  fold (expired r). fold (releaseDto rid r).
  change (set_reservations _ _) with (markedExpired rid r w).
  by destruct (updateStock f (releaseDto rid r) (markedExpired rid r w))
    as [[it|e] w'].
Qed.

Lemma checkReservationExpiry_noop f rid w :
  (forall r, reservations w !! rid = Some r -> r_status r <> ACTIVE) ->
  snd (checkReservationExpiry f rid w) = logCall (FindById rid) w.
Proof.
  intros Hr.
  unfold checkReservationExpiry, stockReservationModel_findById,
    callExt, ret, bind.
  destruct (findByIdFails f); cbv beta iota; [done|].
  change (reservations (logCall (FindById rid) w)) with (reservations w).
  destruct (reservations w !! rid) as [r|] eqn:Hrid; [|done].
  specialize (Hr r eq_refl). by destruct (r_status r).
Qed.

Lemma checkReservationExpiry_returns f rid w :
  findByIdFails f = false ->
  (forall r, reservations w !! rid = Some r -> r_status r <> ACTIVE) ->
  checkReservationExpiry f rid w = (Ok tt, logCall (FindById rid) w).
Proof.
  intros Hfind Hr.
  unfold checkReservationExpiry, stockReservationModel_findById,
    callExt, ret, bind.
  rewrite Hfind. cbv beta iota.
  change (reservations (logCall (FindById rid) w)) with (reservations w).
  destruct (reservations w !! rid) as [r|] eqn:Hrid; [|done].
  specialize (Hr r eq_refl). by destruct (r_status r).
Qed.

(** What the handler leaves when it finds the reservation ACTIVE. *)
Lemma checkReservationExpiry_expires f rid w r :
  reservations w !! rid = Some r -> r_status r = ACTIVE ->
  findByIdFails f = false -> reservationSaveFails f = false ->
  fst (checkReservationExpiry f rid w)
    = Throw (updateStockError f (releaseDto rid r) (markedExpired rid r w))
  /\ reservations (snd (checkReservationExpiry f rid w)) !! rid
     = Some (expired r)
  /\ items (snd (checkReservationExpiry f rid w)) = items w
  /\ audits (snd (checkReservationExpiry f rid w)) = audits w.
Proof.
  intros Hr Hact Hfind Hsave.
  rewrite (checkReservationExpiry_active f rid w r) by done.
  destruct (updateStock_run f (releaseDto rid r) (markedExpired rid r w))
    as (w' & -> & (Hi & Ha & Hres & _) & _).
  cbn [fst snd]. split; [done|]. split; [|by rewrite Hi, Ha].
  rewrite Hres. cbn. apply lookup_insert_eq.
Qed.

(** C7, as the code runs: the expiry handler reads the reservation again.
    When it is ACTIVE, the read and the save answering, the reservation is
    stored as EXPIRED and the RELEASE of its quantity is attempted, but the
    attempt throws: no record changes, the quantity stays reserved, and the
    handler throws; with the stock record holding at least that quantity as
    reserved and the store answering, the error is that of line 143.  When
    the reservation is not ACTIVE, or unknown, the handler returns and
    nothing changes: the only trace is the read in the call log.  When the
    read is rejected, or the save of the EXPIRED status, the handler throws
    that rejection and the reservations are as before. *)
Theorem checkReservationExpiry_as_shipped (f : Faults) (rid : string)
    (w : World) :
  (findByIdFails f = false ->
   forall r,
     reservations w !! rid = Some r -> r_status r = ACTIVE ->
     reservationSaveFails f = false ->
     let out := checkReservationExpiry f rid w in
     isOk (fst out) = false
     /\ reservations (snd out) !! rid = Some (expired r)
     /\ items (snd out) = items w
     /\ audits (snd out) = audits w
     /\ forall it,
          items w !! (r_productId r, r_warehouseId r) = Some it ->
          r_quantity r <= reserved it ->
          upsertFails f = false -> updateFails f = false ->
          fst out = Throw stockUpdateRecordError)
  /\ (findByIdFails f = false ->
      (forall r, reservations w !! rid = Some r -> r_status r <> ACTIVE) ->
      checkReservationExpiry f rid w = (Ok tt, logCall (FindById rid) w))
  /\ (findByIdFails f = true ->
      checkReservationExpiry f rid w
      = (Throw (Rejected (FindById rid)), logCall (FindById rid) w))
  /\ (findByIdFails f = false ->
      forall r,
        reservations w !! rid = Some r -> r_status r = ACTIVE ->
        reservationSaveFails f = true ->
        checkReservationExpiry f rid w
        = (Throw (Rejected (SaveReservation rid)),
           logCall (SaveReservation rid) (logCall (FindById rid) w))).
Proof.
  split; [|split; [|split]].
  - intros Hfind r Hr Hact Hsave out.
    destruct (checkReservationExpiry_expires f rid w r Hr Hact Hfind Hsave)
      as (Herr & Hres & Hi & Ha).
    subst out. split; [by rewrite Herr|]. split; [done|].
    split; [done|]. split; [done|].
    intros it Hit Hle Hups Hupd. rewrite Herr. f_equal.
    unfold updateStockError. rewrite Hups, Hupd.
    rewrite (currentItem_stored _ _ it) by exact Hit.
    unfold switchOperation. cbn.
    by destruct (Z.ltb_spec (reserved it) (r_quantity r)); [lia|].
  - intros Hfind. by apply checkReservationExpiry_returns.
  - intros Hfind.
    unfold checkReservationExpiry, stockReservationModel_findById,
      callExt, bind.
    by rewrite Hfind.
  - intros Hfind r Hr Hact Hsave.
    unfold checkReservationExpiry, stockReservationModel_findById,
      reservation_save, callExt, modify, ret, bind.
    rewrite Hfind, Hsave. cbv beta iota.
    change (reservations (logCall (FindById rid) w)) with (reservations w).
    rewrite Hr. cbv beta iota. by rewrite Hact.
Qed.

(** Scenario C when the timer fires: the reservation becomes EXPIRED, the
    handler throws, and the 20 units stay reserved. *)
Lemma checkReservationExpiry_as_shipped_witness :
  fst (checkReservationExpiry noFaults "0" reservationScenario)
    = Throw stockUpdateRecordError
  /\ r_status <$>
       reservations (snd (checkReservationExpiry noFaults "0"
                            reservationScenario)) !! "0" = Some EXPIRED
  /\ reserved <$>
       items (snd (checkReservationExpiry noFaults "0" reservationScenario))
         !! ("P1", "W1") = Some 20.
Proof.
  destruct (checkReservationExpiry_as_shipped noFaults "0" reservationScenario)
    as [Hactive _].
  destruct (Hactive eq_refl
              {| r_productId := "P1"; r_quantity := 20;
                 r_warehouseId := "W1"; r_expiresAt := 1000;
                 r_status := ACTIVE |})
    as (_ & Hres & Hi & _ & Herr).
  - reflexivity.
  - reflexivity.
  - reflexivity.
  - split; [|split].
    + apply (Herr (mkItem "P1" "W1" 100 20)).
      * reflexivity.
      * cbn. lia.
      * reflexivity.
      * reflexivity.
    + by rewrite Hres.
    + by rewrite Hi.
Defined.

(** ** [reserveStock] *)

Lemma getStockLevel_frame f p wh w :
  let w' := snd (getStockLevel f p wh w) in
  items w' = items w /\ audits w' = audits w
  /\ reservations w' = reservations w /\ timers w' = timers w.
Proof.
  unfold getStockLevel, cacheManager_get, cacheManager_set,
    inventoryItemModel_aggregate, callExt, modify, ret, throw, tryCatch, bind.
  destruct (cacheGetFails f); cbv beta iota; [done|].
  destruct (cacheHit _); cbv beta iota; [done|].
  all: destruct (aggregateFails f); cbv beta iota; [done|].
  all: destruct (cacheSetFails f); cbv beta iota; done.
Qed.

(** C1, as the code has it: when the reservation has been saved as ACTIVE
    and the RESERVE through [updateStock] then throws, [reserveStock] throws
    that error, the stock items and stock-update records are untouched and no
    expiry timer is armed, and the reservation is still in the store with
    status ACTIVE: there is no rollback. *)
Theorem reserveStock_no_rollback (f : Faults) (dto : ReserveStockDto)
    (w w1 w3 : World) (avail : Z) (e : Error) :
  getStockLevel f (rs_productId dto) (Some (rs_warehouseId dto)) w
    = (Ok avail, w1) ->
  rs_quantity dto <= avail ->
  reservationSaveFails f = false ->
  updateStock f (reserveDto (pretty (nextId w1)) dto) (reservationSaved dto w1)
    = (Throw e, w3) ->
  reserveStock f dto w = (Throw e, w3)
  /\ reservations w3 !! pretty (nextId w1)
       = Some (activeReservation dto (now w1))
  /\ items w3 = items w /\ audits w3 = audits w /\ timers w3 = timers w.
Proof.
  intros Hget Hle Hsave Hupd.
  pose proof (getStockLevel_frame f (rs_productId dto)
                (Some (rs_warehouseId dto)) w) as Hframe.
  rewrite Hget in Hframe. cbn in Hframe.
  destruct Hframe as (Hi & Ha & _ & Ht).
  pose proof (updateStock_untouched f (reserveDto (pretty (nextId w1)) dto)
                (reservationSaved dto w1)) as Hout.
  rewrite Hupd in Hout. cbn [snd] in Hout.
  destruct Hout as (Hi3 & Ha3 & Hr3 & _ & _ & _ & _ & Ht3 & _).
  split; [|split; [|split; [|split]]].
  - unfold reserveStock, bind. rewrite Hget.
    destruct (Z.ltb_spec avail (rs_quantity dto)); [lia|].
    unfold dateNow, newObjectId, reservation_save, callExt, modify, bind.
    rewrite Hsave. cbv beta iota.
    change (updateStock f _ _)
      with (updateStock f (reserveDto (pretty (nextId w1)) dto)
              (reservationSaved dto w1)).
    by rewrite Hupd.
  - rewrite Hr3. cbn. apply lookup_insert_eq.
  - by rewrite Hi3, <- Hi.
  - by rewrite Ha3, <- Ha.
  - by rewrite Ht3, <- Ht.
Qed.

Lemma reserveStock_no_rollback_witness :
  reserveStock noFaults reserveP1 scenarioA
    = (Throw stockUpdateRecordError, afterFailedReserve)
  /\ reservations afterFailedReserve !! "0"
       = Some {| r_productId := "P1"; r_quantity := 20;
                 r_warehouseId := "W1"; r_expiresAt := 1000;
                 r_status := ACTIVE |}.
Proof.
  destruct (reserveStock_no_rollback noFaults reserveP1 scenarioA
              afterPrecheck afterFailedReserve
              100 stockUpdateRecordError)
    as (Hrun & Hres & _).
  - vm_compute. reflexivity.
  - cbn. lia.
  - reflexivity.
  - vm_compute. reflexivity.
  - split; [exact Hrun | exact Hres].
Defined.

(** Counterexample to C1 as stated: 20 of the 100 units of (P1, W1) are
    asked for, every collaborator answers.  The reservation is saved as
    ACTIVE, the RESERVE of [reserveStock] throws at line 143; the caller gets
    the error, the record keeps [reserved = 0], no timer is armed, and the
    reservation stays ACTIVE. *)
Lemma reserveStock_leaves_active_reservation :
  fst (reserveStock noFaults reserveP1 scenarioA)
    = Throw stockUpdateRecordError
  /\ r_status <$>
       reservations (snd (reserveStock noFaults reserveP1 scenarioA)) !! "0"
     = Some ACTIVE
  /\ reserved <$>
       items (snd (reserveStock noFaults reserveP1 scenarioA)) !! ("P1", "W1")
     = Some 0
  /\ timers (snd (reserveStock noFaults reserveP1 scenarioA)) = [].
Proof. vm_compute. repeat split; reflexivity. Qed.

(** ** Side effects and cache invalidation *)






(** * Further properties *)

(** ** [updateStock]: what a run touches *)

(** X1: [updateStock] on one (product, warehouse) never changes the record
    of another one, whatever happens during the run. *)
Theorem updateStock_other_records (f : Faults) (dto : UpdateStockDto)
    (w : World) (k : string * string) :
  k <> (dto_productId dto, dto_warehouseId dto) ->
  items (snd (updateStock f dto w)) !! k = items w !! k.
Proof. intros Hk. by rewrite updateStock_items. Qed.

Lemma updateStock_other_records_witness :
  items (snd (updateStock noFaults (mkDto "P1" "W1" 5 "ADD") scenarioD))
    !! ("P1", "W2")
  = items scenarioD !! ("P1", "W2").
Proof.
  apply (updateStock_other_records noFaults (mkDto "P1" "W1" 5 "ADD")
           scenarioD ("P1", "W2")).
  discriminate.
Defined.


(** ** The store over runs, and reading it back *)

Lemma runOps_items ops w : items (runOps ops w) = items w.
Proof.
  revert w. induction ops as [|[f dto] ops IH]; intros w; [done|].
  change (runOps ((f, dto) :: ops) w)
    with (runOps ops (snd (updateStock f dto w))).
  by rewrite IH, updateStock_items.
Qed.

(** X6: no sequence of [updateStock] calls deletes a record, shortens or
    rewrites its history (the old history is a prefix of the new one), or
    changes its [productId], [warehouseId], [lowStockThreshold] or
    [isActive]. *)
Theorem history_append_only (ops : list (Faults * UpdateStockDto))
    (w : World) (k : string * string) (it : InventoryItem) :
  items w !! k = Some it ->
  exists it',
    items (runOps ops w) !! k = Some it'
    /\ history it `prefix_of` history it'
    /\ sameIdentity it it'.
Proof.
  intros Hk. exists it. rewrite runOps_items. by repeat split.
Qed.

Lemma history_append_only_witness :
  exists it',
    items (runOps exampleOps scenarioB) !! ("P1", "W1") = Some it'
    /\ history (mkItem "P1" "W1" 10 5) `prefix_of` history it'
    /\ sameIdentity (mkItem "P1" "W1" 10 5) it'.
Proof.
  apply (history_append_only exampleOps scenarioB ("P1", "W1")
           (mkItem "P1" "W1" 10 5)).
  reflexivity.
Defined.



(** ** The aggregate of one warehouse *)

Lemma sumOf_Permutation g (l1 l2 : list InventoryItem) :
  l1 ≡ₚ l2 -> sumOf g l1 = sumOf g l2.
Proof.
  unfold sumOf.
  induction 1 as [|x l1 l2 _ IH|x y l|l1 l2 l3 _ IH1 _ IH2]; cbn;
    [done | by rewrite IH | lia | congruence].
Qed.

Lemma filter_none {A} (P : A -> Prop) `{!forall x, Decision (P x)}
    (l : list A) :
  (forall x, x ∈ l -> ~ P x) -> filter P l = [].
Proof.
  induction l as [|x l IH]; intros Hno; [done|].
  rewrite filter_cons_False by (apply Hno; left).
  apply IH. intros y Hy. apply Hno. by right.
Qed.

Lemma specAvailable_no_match p wh w :
  (forall k it, items w !! k = Some it -> ~ isMatching p wh it) ->
  specAvailable p wh w = 0.
Proof.
  intros Hno. unfold specAvailable.
  rewrite filter_none; [done|].
  intros it Hin. unfold documents in Hin.
  apply list_elem_of_fmap in Hin as ([k it'] & -> & Hin).
  apply elem_of_map_to_list in Hin. by apply (Hno k).
Qed.

Lemma truthy_nonempty wh : wh <> "" -> truthy (Some wh) = Some wh.
Proof. by destruct wh. Qed.

Lemma specAvailable_one_warehouse p wh w it :
  wellKeyed w -> wh <> "" ->
  items w !! (p, wh) = Some it ->
  specAvailable p (Some wh) w
  = if isActive it then quantity it - reserved it else 0.
Proof.
  intros Hw Hwh Hit.
  destruct (Hw p wh it Hit) as [Hp Hwhit].
  assert (Hperm : documents w ≡ₚ
            it :: (map_to_list (delete (p, wh) (items w))).*2).
  { unfold documents.
    rewrite <- (insert_delete_id (items w) (p, wh) it Hit) at 1.
    rewrite map_to_list_insert by apply lookup_delete_eq. done. }
  assert (Hrest : filter (isMatching p (Some wh))
                    (map_to_list (delete (p, wh) (items w))).*2 = []).
  { apply filter_none. intros x Hin (_ & Hpx & Hwx).
    rewrite (truthy_nonempty wh Hwh) in Hwx.
    apply list_elem_of_fmap in Hin as ([[p' wh'] x'] & -> & Hin).
    apply elem_of_map_to_list in Hin. cbn in *.
    destruct (decide ((p, wh) = (p', wh'))) as [[= <- <-]|Hne].
    - by rewrite lookup_delete_eq in Hin.
    - rewrite lookup_delete_ne in Hin by done.
      destruct (Hw p' wh' x' Hin). congruence. }
  unfold specAvailable.
  rewrite (sumOf_Permutation quantity _ _ (filter_Permutation _ _ _ Hperm)),
    (sumOf_Permutation reserved _ _ (filter_Permutation _ _ _ Hperm)).
  destruct (isActive it) eqn:Hact.
  - rewrite filter_cons_True, Hrest; [cbn; lia|].
    split; [done|]. split; [done|]. by rewrite (truthy_nonempty wh Hwh).
  - rewrite filter_cons_False, Hrest; [done|].
    intros (Hact' & _). congruence.
Qed.

(** X8: on a cache miss, a query for one warehouse returns the
    [quantity - reserved] of that warehouse's record when the record is
    active, and [0] when it is deactivated. *)
Theorem getStockLevel_one_warehouse (p wh : string) (w : World)
    (it : InventoryItem) :
  wellKeyed w ->
  wh <> "" ->
  items w !! (p, wh) = Some it ->
  cacheHit (cacheLookup (cacheKey p (Some wh)) w) = None ->
  fst (getStockLevel noFaults p (Some wh) w)
  = Ok (if isActive it then quantity it - reserved it else 0).
Proof.
  intros Hw Hwh Hit Hmiss.
  rewrite (getStockLevel_miss noFaults p (Some wh) w) by done.
  cbn [fst]. rewrite aggregated_specAvailable.
  by rewrite (specAvailable_one_warehouse p wh w it).
Qed.

Lemma getStockLevel_one_warehouse_witness :
  fst (getStockLevel noFaults "P1" (Some "W2") scenarioD) = Ok (40 - 15).
Proof.
  apply (getStockLevel_one_warehouse "P1" "W2" scenarioD
           (mkItem "P1" "W2" 40 15)).
  - intros p wh it H.
    destruct (decide ((p, wh) = ("P1", "W2"))) as [[= -> ->]|Hne2];
      [vm_compute in H; by injection H as <-|].
    destruct (decide ((p, wh) = ("P1", "W1"))) as [[= -> ->]|Hne1];
      [vm_compute in H; by injection H as <-|].
    unfold scenarioD, withItem in H. cbn in H.
    rewrite !lookup_insert_ne in H by done. by rewrite lookup_empty in H.
  - discriminate.
  - reflexivity.
  - reflexivity.
Defined.

(** X10: for a product without a matching active record (unknown product,
    or only deactivated records), a cache miss is no error: [getStockLevel]
    returns [0] and caches that [0] under the key, with [CACHE_TTL = 300]
    milliseconds to live. *)
Theorem getStockLevel_no_record (p : string) (wh : option string)
    (w : World) :
  (forall k it, items w !! k = Some it -> ~ isMatching p wh it) ->
  cacheHit (cacheLookup (cacheKey p wh) w) = None ->
  fst (getStockLevel noFaults p wh w) = Ok 0
  /\ cache (snd (getStockLevel noFaults p wh w)) !! cacheKey p wh
     = Some {| ce_value := 0; ce_expiresAt := now w + CACHE_TTL |}.
Proof.
  intros Hno Hmiss.
  rewrite (getStockLevel_miss noFaults p wh w) by done.
  unfold afterMiss.
  rewrite aggregated_specAvailable, (specAvailable_no_match p wh w Hno).
  split; [done|]. cbn. by rewrite lookup_insert_eq.
Qed.

Lemma getStockLevel_no_record_witness :
  fst (getStockLevel noFaults "P9" None scenarioA) = Ok 0
  /\ cache (snd (getStockLevel noFaults "P9" None scenarioA)) !! "stock:P9:all"
     = Some {| ce_value := 0; ce_expiresAt := 300 |}.
Proof.
  apply (getStockLevel_no_record "P9" None scenarioA).
  - intros [p wh] it H (_ & Hp & _).
    destruct (decide ((p, wh) = ("P1", "W1"))) as [[= -> ->]|Hne1].
    + vm_compute in H. injection H as <-. discriminate Hp.
    + unfold scenarioA, withItem in H. cbn in H.
      rewrite lookup_insert_ne in H by done. by rewrite lookup_empty in H.
  - reflexivity.
Defined.

(** X11: [getStockLevel] only reads the store: whatever is rejected, the
    items, stock-update records, reservations, queue, emitted events, timers
    and clock are as before.  When it throws, the error is the rejection of
    one of its three calls, passed on as it is, and the cache is as before. *)
Theorem getStockLevel_read_only (f : Faults) (p : string)
    (wh : option string) (w : World) :
  (items (snd (getStockLevel f p wh w)) = items w
   /\ audits (snd (getStockLevel f p wh w)) = audits w
   /\ reservations (snd (getStockLevel f p wh w)) = reservations w
   /\ queue (snd (getStockLevel f p wh w)) = queue w
   /\ emitted (snd (getStockLevel f p wh w)) = emitted w
   /\ timers (snd (getStockLevel f p wh w)) = timers w
   /\ now (snd (getStockLevel f p wh w)) = now w)
  /\ forall e, fst (getStockLevel f p wh w) = Throw e ->
       cache (snd (getStockLevel f p wh w)) = cache w
       /\ (e = Rejected (CacheGet (cacheKey p wh))
           \/ e = Rejected (Aggregate p wh)
           \/ exists v, e = Rejected (CacheSet (cacheKey p wh) v CACHE_TTL)).
Proof.
  unfold getStockLevel, cacheManager_get, cacheManager_set,
    inventoryItemModel_aggregate, callExt, modify, ret, throw, tryCatch, bind.
  destruct (cacheGetFails f); cbv beta iota.
  { split; [done|]. intros e [= <-]. split; [done|]. by left. }
  destruct (cacheHit _); cbv beta iota; [by split|].
  destruct (aggregateFails f); cbv beta iota.
  { split; [done|]. intros e [= <-]. split; [done|]. right. by left. }
  destruct (cacheSetFails f); cbv beta iota.
  { split; [done|]. intros e [= <-]. split; [done|]. right. right.
    by eexists. }
  by split.
Qed.

Lemma getStockLevel_read_only_witness :
  fst (getStockLevel cacheDown "P1" None scenarioA)
    = Throw (Rejected (CacheGet "stock:P1:all"))
  /\ cache (snd (getStockLevel cacheDown "P1" None scenarioA))
     = cache scenarioA.
Proof.
  split; [reflexivity|].
  apply (proj2 (getStockLevel_read_only cacheDown "P1" None scenarioA)
           (Rejected (CacheGet "stock:P1:all"))).
  reflexivity.
Defined.

(** ** Reservations *)

Lemma getStockLevel_preserves f p wh w :
  items (snd (getStockLevel f p wh w)) = items w
  /\ reservations (snd (getStockLevel f p wh w)) = reservations w
  /\ timers (snd (getStockLevel f p wh w)) = timers w
  /\ nextId (snd (getStockLevel f p wh w)) = nextId w
  /\ now (snd (getStockLevel f p wh w)) = now w.
Proof.
  unfold getStockLevel, cacheManager_get, cacheManager_set,
    inventoryItemModel_aggregate, callExt, modify, ret, throw, tryCatch, bind.
  destruct (cacheGetFails f); cbv beta iota; [done|].
  destruct (cacheHit _); cbv beta iota; [done|].
  all: destruct (aggregateFails f); cbv beta iota; [done|].
  all: destruct (cacheSetFails f); cbv beta iota; done.
Qed.

(** X12: when the pre-check of [reserveStock] finds less than the requested
    quantity, it throws the "Insufficient stock" error naming both figures,
    and has done nothing but the stock query: no reservation is created, no
    stock is reserved, no timer is armed. *)
Theorem reserveStock_precheck_rejects (f : Faults) (dto : ReserveStockDto)
    (w w1 : World) (avail : Z) :
  getStockLevel f (rs_productId dto) (Some (rs_warehouseId dto)) w
    = (Ok avail, w1) ->
  avail < rs_quantity dto ->
  reserveStock f dto w
    = (Throw (JsError ("Insufficient stock. Available: " +:+ pretty avail
                       +:+ ", Requested: " +:+ pretty (rs_quantity dto))), w1)
  /\ reservations w1 = reservations w
  /\ items w1 = items w
  /\ timers w1 = timers w.
Proof.
  intros Hget Hlt.
  pose proof (getStockLevel_preserves f (rs_productId dto)
                (Some (rs_warehouseId dto)) w) as Hframe.
  rewrite Hget in Hframe. cbn [snd] in Hframe.
  destruct Hframe as (Hi & Hr & Ht & _).
  split; [|done].
  unfold reserveStock, bind. rewrite Hget.
  by destruct (Z.ltb_spec avail (rs_quantity dto)); [|lia].
Qed.

Lemma reserveStock_precheck_rejects_witness :
  fst (reserveStock noFaults
         {| rs_productId := "P1"; rs_quantity := 6; rs_warehouseId := "W1";
            rs_ttlSeconds := None |} scenarioB)
  = Throw (JsError "Insufficient stock. Available: 5, Requested: 6").
Proof.
  destruct (reserveStock_precheck_rejects noFaults
              {| rs_productId := "P1"; rs_quantity := 6;
                 rs_warehouseId := "W1"; rs_ttlSeconds := None |}
              scenarioB
              (snd (getStockLevel noFaults "P1" (Some "W1") scenarioB)) 5)
    as [Hrun _].
  - vm_compute. reflexivity.
  - cbn. lia.
  - rewrite Hrun. vm_compute. reflexivity.
Defined.

(** X15: the expiry handler releases at most once.  Once it has run with the
    reservation read and saved, whatever the outcome of its release, any
    further run for the same id changes nothing: the only trace is the read
    in the call log. *)
Theorem expiry_at_most_once (f1 f2 : Faults) (rid : string) (w : World) :
  findByIdFails f1 = false ->
  reservationSaveFails f1 = false ->
  snd (checkReservationExpiry f2 rid (snd (checkReservationExpiry f1 rid w)))
  = logCall (FindById rid) (snd (checkReservationExpiry f1 rid w)).
Proof.
  intros Hfind Hsave.
  apply checkReservationExpiry_noop. intros r' Hr'.
  destruct (reservations w !! rid) as [r|] eqn:Hr.
  - destruct (r_status r) eqn:Hact.
    2-4: rewrite (checkReservationExpiry_noop f1 rid w) in Hr'
           by (intros r0 Hr0; congruence);
         cbn in Hr'; congruence.
    destruct (checkReservationExpiry_expires f1 rid w r Hr Hact Hfind Hsave)
      as (_ & Hres & _).
    rewrite Hres in Hr'. by injection Hr' as <-.
  - rewrite (checkReservationExpiry_noop f1 rid w) in Hr'
      by (intros r0 Hr0; congruence).
    cbn in Hr'. congruence.
Qed.

Lemma expiry_at_most_once_witness :
  snd (checkReservationExpiry noFaults "0"
         (snd (checkReservationExpiry noFaults "0" reservationScenario)))
  = logCall (FindById "0")
      (snd (checkReservationExpiry noFaults "0" reservationScenario)).
Proof.
  apply (expiry_at_most_once noFaults noFaults "0" reservationScenario);
    reflexivity.
Defined.

(** X16: the handler marks the reservation EXPIRED before it releases.  When
    the record holds less reserved stock than the reservation's quantity,
    the release is refused ("Cannot release more than reserved"): the handler
    throws, the stock records are untouched, and the reservation is EXPIRED
    all the same. *)
Theorem expiry_release_refused (rid : string) (w : World)
    (r : StockReservation) (it : InventoryItem) :
  reservations w !! rid = Some r ->
  r_status r = ACTIVE ->
  items w !! (r_productId r, r_warehouseId r) = Some it ->
  reserved it < r_quantity r ->
  fst (checkReservationExpiry noFaults rid w)
    = Throw (JsError "Cannot release more than reserved")
  /\ reservations (snd (checkReservationExpiry noFaults rid w)) !! rid
     = Some (expired r)
  /\ items (snd (checkReservationExpiry noFaults rid w)) = items w.
Proof.
  intros Hr Hact Hit Hlt.
  destruct (checkReservationExpiry_expires noFaults rid w r Hr Hact)
    as (Herr & Hres & Hi & _); [done | done |].
  split; [|done].
  rewrite Herr. f_equal. unfold updateStockError. cbn [upsertFails noFaults].
  rewrite (currentItem_stored _ _ it) by exact Hit.
  unfold switchOperation. cbn.
  by destruct (Z.ltb_spec (reserved it) (r_quantity r)); [|lia].
Qed.

Lemma expiry_release_refused_witness :
  fst (checkReservationExpiry noFaults "0" releasedEarly)
    = Throw (JsError "Cannot release more than reserved")
  /\ r_status <$>
       reservations (snd (checkReservationExpiry noFaults "0" releasedEarly))
         !! "0" = Some EXPIRED.
Proof.
  destruct (expiry_release_refused "0" releasedEarly
              {| r_productId := "P1"; r_quantity := 20; r_warehouseId := "W1";
                 r_expiresAt := 1000; r_status := ACTIVE |}
              (mkItem "P1" "W1" 100 0))
    as (Hrun & Hres & _).
  - reflexivity.
  - reflexivity.
  - reflexivity.
  - cbn. lia.
  - split; [exact Hrun|]. by rewrite Hres.
Defined.

(** ** The counters the [switch] computes *)



(** ** Cache keys and the sign of the figure *)

(** X20: a warehouse whose id is "all" shares its cache key with the
    product's aggregate.  When the total over all warehouses is cached,
    [getStockLevel] for warehouse "all" returns that total, whatever the
    record of that warehouse holds, and does not read the store. *)
Theorem warehouse_all_shares_aggregate_key (f : Faults) (p : string)
    (w : World) (n : Z) :
  cacheGetFails f = false ->
  cacheHit (cacheLookup (cacheKey p None) w) = Some n ->
  getStockLevel f p (Some "all") w
  = (Ok n, logCall (CacheGet (cacheKey p None)) w).
Proof.
  intros Hf Hhit.
  apply (getStockLevel_hit f p (Some "all") w n Hf).
  change (cacheKey p (Some "all")) with (cacheKey p None).
  by destruct (cacheLookup (cacheKey p None) w); cbn in Hhit; simplify_eq.
Qed.

Lemma warehouse_all_shares_aggregate_key_witness :
  fst (getStockLevel noFaults "P1" (Some "all") warehouseNamedAll) = Ok 103
  /\ (quantity <$> items warehouseNamedAll !! ("P1", "all")) = Some 3.
Proof.
  split; [|reflexivity].
  rewrite (warehouse_all_shares_aggregate_key noFaults "P1"
             warehouseNamedAll 103); reflexivity.
Defined.

Lemma sumOf_invariant (l : list InventoryItem) :
  Forall invariant l -> 0 <= sumOf quantity l - sumOf reserved l.
Proof.
  unfold sumOf, invariant. induction 1 as [|it l Hit _ IH]; cbn; lia.
Qed.

(** X21: when every stored record has [0 <= reserved <= quantity], the figure
    [getStockLevel] computes on a cache miss is not negative. *)
Theorem getStockLevel_nonnegative (p : string) (wh : option string)
    (w : World) :
  storeInvariant w ->
  cacheHit (cacheLookup (cacheKey p wh) w) = None ->
  exists v, fst (getStockLevel noFaults p wh w) = Ok v /\ 0 <= v.
Proof.
  intros Hw Hmiss.
  rewrite (getStockLevel_miss noFaults p wh w) by done.
  eexists. split; [done|].
  rewrite aggregated_specAvailable. unfold specAvailable.
  apply sumOf_invariant. apply Forall_forall. intros it Hin.
  apply list_elem_of_filter in Hin as [_ Hin]. unfold documents in Hin.
  apply list_elem_of_fmap in Hin as ([k it'] & -> & Hin).
  apply elem_of_map_to_list in Hin. by apply (Hw k).
Qed.

Lemma getStockLevel_nonnegative_witness :
  exists v, fst (getStockLevel noFaults "P1" None scenarioD) = Ok v /\ 0 <= v.
Proof.
  apply (getStockLevel_nonnegative "P1" None scenarioD).
  - intros [p wh] it H.
    destruct (decide ((p, wh) = ("P1", "W2"))) as [[= -> ->]|Hne2];
      [vm_compute in H; injection H as <-; unfold invariant; cbn; lia|].
    destruct (decide ((p, wh) = ("P1", "W1"))) as [[= -> ->]|Hne1];
      [vm_compute in H; injection H as <-; unfold invariant; cbn; lia|].
    unfold scenarioD, withItem in H. cbn in H.
    rewrite !lookup_insert_ne in H by done. by rewrite lookup_empty in H.
  - reflexivity.
Defined.
